(** * cognito-login: deployment scripts and sign-up form, embedded in Rocq

    The development follows the repository's sources:
    - [SignUp] : the form validation and submit handler of the sign-up page
      (frontend/src/components/SignUp.tsx);
    - [Shell], [Deploy], [Destroy] : the two bash scripts that drive the
      CloudFormation stack (infrastructure/cloudformation);
    - [Publish] : the effect of the two S3 transfers of the deploy script;
    - [Runs] : the calls to expect from the scripts, and sample worlds;
    - [UserApi] : the credential manager of the user-management API, which
      is documented by its README only;
    - [Expect], [ScriptLogic] : the calls and lines to expect from a run
      under [set -e], and the predicates the scripts are reasoned with;
    - [Pages], [Login], [ForgotPassword], [ResetPassword], [VerifyEmail],
      [Dashboard], [App] : the handlers of the other pages and the route
      table (frontend/src/components, frontend/src/App.tsx);
    - [Cdk] : the reading of [outputs.json] in the CDK deployment script
      (deploy.sh). *)

From Stdlib Require Import ZArith NArith List String Ascii Bool Lia.
From stdpp Require Import gmap strings list.

Open Scope string_scope.
Open Scope list_scope.

(** ** Regular expressions, as far as the sources use them *)

Module Re.

(** The subject of a match: a sequence of character codes (UTF-16 code
    units for JavaScript, bytes for the shell). *)
Definition subject := list N.

(** Character classes, sequencing, [+] and [*] on a class, positive
    lookahead and the end anchor. *)
Inductive re : Type :=
| Eps
| Cls (p : N -> bool)
| Seq (r1 r2 : re)
| StarCls (p : N -> bool)
| PlusCls (p : N -> bool)
| Look (r : re)
| Eol.

(** Greedy iteration of a class, with backtracking into the continuation. *)
Fixpoint star (p : N -> bool) (k : subject -> bool) (s : subject) : bool :=
  match s with
  | c :: s' => (p c && star p k s') || k s
  | [] => k []
  end.

(** Backtracking matcher in continuation-passing style: [m r k s] holds
    when [r] matches a prefix of [s] and [k] accepts what is left. *)
Fixpoint m (r : re) (k : subject -> bool) (s : subject) : bool :=
  match r with
  | Eps => k s
  | Cls p => match s with c :: s' => p c && k s' | [] => false end
  | Seq r1 r2 => m r1 (m r2 k) s
  | StarCls p => star p k s
  | PlusCls p => match s with c :: s' => p c && star p k s' | [] => false end
  | Look r => m r (fun _ => true) s && k s
  | Eol => match s with [] => k [] | _ :: _ => false end
  end.

(** A regular expression literal: whether it opens with [^], and its body. *)
Record regex : Type := Regex { anchored : bool; body : re }.

(** All suffixes of a subject, the whole first and the empty one last:
    the positions at which an unanchored search may start. *)
Fixpoint suffixes (s : subject) : list subject :=
  match s with
  | [] => [[]]
  | _ :: s' => s :: suffixes s'
  end.

(** Is there a match anywhere in [s]? ([RegExp.prototype.test], [=~]) *)
Definition test (rx : regex) (s : subject) : bool :=
  if anchored rx then m (body rx) (fun _ => true) s
  else existsb (m (body rx) (fun _ => true)) (suffixes s).

(** Character classes. *)
Definition chr (a : ascii) : N := N_of_ascii a.
Definition is_char (a : ascii) (c : N) : bool := (c =? chr a)%N.
Definition in_range (lo hi : ascii) (c : N) : bool :=
  ((chr lo <=? c) && (c <=? chr hi))%N.
Definition any_of (l : string) (c : N) : bool :=
  existsb (fun a => (c =? chr a)%N) (list_ascii_of_string l).

(** The codes of an ASCII text. *)
Definition codes (s : string) : subject :=
  map N_of_ascii (list_ascii_of_string s).

End Re.

(** ** JavaScript strings *)

Module Js.
Import Re.

(** A JavaScript string is a sequence of UTF-16 code units. *)
Definition jsstring := list N.

(** A string literal of the source (all literals used here are ASCII). *)
Definition lit (s : string) : jsstring := codes s.

(** [===] on strings. *)
Definition jseq (a b : jsstring) : bool := bool_decide (a = b).

(** ECMAScript WhiteSpace and LineTerminator code points: what [\s]
    matches and what [String.prototype.trim] strips. *)
Definition is_space (c : N) : bool :=
  ((9 <=? c) && (c <=? 13) || (c =? 32) || (c =? 160) || (c =? 5760)
   || (8192 <=? c) && (c <=? 8202) || (c =? 8232) || (c =? 8233)
   || (c =? 8239) || (c =? 8287) || (c =? 12288) || (c =? 65279))%N.

(** LineTerminator: what [.] does not match. *)
Definition is_line_terminator (c : N) : bool :=
  ((c =? 10) || (c =? 13) || (c =? 8232) || (c =? 8233))%N.

Definition dot (c : N) : bool := negb (is_line_terminator c).

Fixpoint trimStart (s : jsstring) : jsstring :=
  match s with
  | c :: s' => if is_space c then trimStart s' else s
  | [] => []
  end.

Definition trimEnd (s : jsstring) : jsstring := rev (trimStart (rev s)).

Definition trim (s : jsstring) : jsstring := trimEnd (trimStart s).

(** Truthiness of a string: the empty string is falsy. *)
Definition truthy (s : jsstring) : bool :=
  match s with [] => false | _ => true end.

(** [a || b] on strings. *)
Definition or_else (a b : jsstring) : jsstring := if truthy a then a else b.

End Js.

(** ** The sign-up page (SignUp.tsx) *)

Module SignUp.
Import Re Js.

Record FormData : Type := {
  firstName : jsstring;
  lastName : jsstring;
  email : jsstring;
  password : jsstring;
  confirmPassword : jsstring
}.

(** The component's three pieces of state. *)
Record State : Type := {
  formData : FormData;
  error : jsstring;
  loading : bool
}.

Definition setError (msg : jsstring) (st : State) : State :=
  {| formData := formData st; error := msg; loading := loading st |}.

Definition setLoading (b : bool) (st : State) : State :=
  {| formData := formData st; error := error st; loading := b |}.

(** [[^\s@]] *)
Definition not_space_at (c : N) : bool := negb (is_space c || is_char "@" c).

(** [/^[^\s@]+@[^\s@]+\.[^\s@]+$/] *)
Definition email_re : regex :=
  Regex true
    (Seq (PlusCls not_space_at)
      (Seq (Cls (is_char "@"))
        (Seq (PlusCls not_space_at)
          (Seq (Cls (is_char "."))
            (Seq (PlusCls not_space_at) Eol))))).

(** [/(?=.*C)/] for a class [C]. *)
Definition ahead (p : N -> bool) : regex :=
  Regex false (Look (Seq (StarCls dot) (Cls p))).

Definition lower (c : N) : bool := in_range "a" "z" c.
Definition upper (c : N) : bool := in_range "A" "Z" c.
Definition digit (c : N) : bool := in_range "0" "9" c.
Definition special (c : N) : bool := any_of "!@#$%^&*" c.

Definition lower_re : regex := ahead lower.
Definition upper_re : regex := ahead upper.
Definition digit_re : regex := ahead digit.
Definition special_re : regex := ahead special.

(** [validateForm]: each failed check records its message and returns
    [false]; the checks run in the order of the source. *)
Definition validateForm (st : State) : bool * State :=
  let f := formData st in
  if negb (truthy (trim (firstName f))) then
    (false, setError (lit "First name is required") st)
  else if negb (truthy (trim (lastName f))) then
    (false, setError (lit "Last name is required") st)
  else if negb (truthy (trim (email f))) then
    (false, setError (lit "Email is required") st)
  else if negb (test email_re (email f)) then
    (false, setError (lit "Please enter a valid email address") st)
  else if (length (password f) <? 8)%nat then
    (false, setError (lit "Password must be at least 8 characters long") st)
  else if negb (test lower_re (password f)) then
    (false, setError (lit "Password must contain at least one lowercase letter") st)
  else if negb (test upper_re (password f)) then
    (false, setError (lit "Password must contain at least one uppercase letter") st)
  else if negb (test digit_re (password f)) then
    (false, setError (lit "Password must contain at least one number") st)
  else if negb (test special_re (password f)) then
    (false, setError (lit "Password must contain at least one special character (!@#$%^&*)") st)
  else if negb (jseq (password f) (confirmPassword f)) then
    (false, setError (lit "Passwords do not match") st)
  else (true, st).

(** The argument of the [signUp] call. *)
Record SignUpInput : Type := {
  username : jsstring;
  su_password : jsstring;
  attr_email : jsstring;
  attr_given_name : jsstring;
  attr_family_name : jsstring
}.

(** What a rejected [signUp] promise carries. *)
Record Err : Type := { name : jsstring; message : jsstring }.

Inductive Settled : Type :=
| Resolved
| Rejected (err : Err).

(** What the handler does to the outside world, in order. *)
Inductive Effect : Type :=
| PreventDefault
| SignUpCall (input : SignUpInput)
| Navigate (path : jsstring) (state_email : jsstring)
| ConsoleError (label : jsstring) (err : Err).

Definition is_signUp (e : Effect) : bool :=
  match e with SignUpCall _ => true | _ => false end.

(** The [catch] block: the message shown for each kind of rejection. *)
Definition on_rejected (err : Err) (st : State) : State :=
  if jseq (name err) (lit "UsernameExistsException") then
    setError (lit "An account with this email already exists. Please log in or use a different email.") st
  else if jseq (name err) (lit "InvalidPasswordException") then
    setError (or_else (message err) (lit "Password does not meet requirements")) st
  else if jseq (name err) (lit "InvalidParameterException") then
    setError (or_else (message err) (lit "Invalid input. Please check your information and try again.")) st
  else
    setError (or_else (message err) (lit "An error occurred during sign up. Please try again.")) st.

(** [handleSubmit], with the identity service given as the function
    [signUp] from the request to the way its promise settles. *)
Definition handleSubmit (signUp : SignUpInput -> Settled) (st : State)
  : State * list Effect :=
  let st0 := setError [] st in
  let '(ok, st1) := validateForm st0 in
  if negb ok then (st1, [PreventDefault])
  else
    let st2 := setLoading true st1 in
    let f := formData st2 in
    let input := {| username := email f;
                    su_password := password f;
                    attr_email := email f;
                    attr_given_name := firstName f;
                    attr_family_name := lastName f |} in
    match signUp input with
    | Resolved =>
        (setLoading false st2,
         [PreventDefault; SignUpCall input;
          Navigate (lit "/verify-email") (email f)])
    | Rejected err =>
        (setLoading false (on_rejected err st2),
         [PreventDefault; SignUpCall input;
          ConsoleError (lit "Sign up error:") err])
    end.

(** What the form must satisfy, stated without the matcher. *)
Definition has (p : N -> bool) (s : jsstring) : Prop :=
  exists c, In c s /\ p c = true.

(** [local@domain.tld]: three non-empty runs free of white space and of
    [@], separated by one [@] and one dot. *)
Definition email_shape (e : jsstring) : Prop :=
  exists a b c,
    e = a ++ chr "@" :: b ++ chr "." :: c /\
    a <> [] /\ b <> [] /\ c <> [] /\
    forallb not_space_at a = true /\
    forallb not_space_at b = true /\
    forallb not_space_at c = true.

Record acceptable (f : FormData) : Prop := {
  first_given : trim (firstName f) <> [];
  last_given : trim (lastName f) <> [];
  email_given : trim (email f) <> [];
  email_ok : email_shape (email f);
  long_enough : 8 <= length (password f);
  with_lower : has lower (password f);
  with_upper : has upper (password f);
  with_digit : has digit (password f);
  with_special : has special (password f);
  confirmed : password f = confirmPassword f
}.

(** The checks of [validateForm], as one conjunction. *)
Definition checks (f : FormData) : bool :=
  truthy (trim (firstName f)) && truthy (trim (lastName f))
  && truthy (trim (email f)) && test email_re (email f)
  && negb (length (password f) <? 8)%nat
  && test lower_re (password f) && test upper_re (password f)
  && test digit_re (password f) && test special_re (password f)
  && jseq (password f) (confirmPassword f).

(** A form with a blank first name, and one that passes. *)
Definition blank_form : State :=
  {| formData := {| firstName := lit "  "; lastName := lit "Doe";
                    email := lit "john.doe@example.com";
                    password := lit "Secret1!x";
                    confirmPassword := lit "Secret1!x" |};
     error := []; loading := false |}.

Definition good_form : State :=
  {| formData := {| firstName := lit "John"; lastName := lit "Doe";
                    email := lit "john.doe@example.com";
                    password := lit "Secret1!x";
                    confirmPassword := lit "Secret1!x" |};
     error := []; loading := false |}.

End SignUp.

(** ** The shell: commands, events and scripts under [set -e] *)

Module Shell.

(** The external commands the two scripts run, with the arguments the
    scripts give them. *)
Inductive Cmd : Type :=
| Cfn_validate_template (template region : string)
| Cfn_describe_stacks (stack region : string)
| Cfn_describe_output (stack region key : string)
| Cfn_create_change_set (stack change_set template region : string)
| Cfn_wait_change_set_create_complete (stack change_set region : string)
| Cfn_execute_change_set (stack change_set region : string)
| Cfn_wait_stack_update_complete (stack region : string)
| Cfn_create_stack (stack template region : string)
| Cfn_wait_stack_create_complete (stack region : string)
| Cfn_delete_stack (stack region : string)
| Cfn_wait_stack_delete_complete (stack region : string)
| S3_sync (src dst region cache_control : string) (excludes : list string)
| S3_cp (src dst region cache_control : string)
| S3_rm_recursive (target region : string)
| Cloudfront_create_invalidation (distribution paths : string)
| Cloudfront_wait_invalidation_completed (distribution id : string)
| Npm_install (dir : string)
| Npm_run_build (dir : string).

(** What a run leaves behind, in order. *)
Inductive Event : Type :=
| Ran (c : Cmd)
| Echo (line : string)
| Prompt (text : string)
| Wrote (file content : string).

(** The commands of a trace, in order. *)
Fixpoint calls (tr : list Event) : list Cmd :=
  match tr with
  | [] => []
  | Ran c :: tr' => c :: calls tr'
  | _ :: tr' => calls tr'
  end.

(** What [read] finds on standard input: a full line, or the end of the
    input after a possibly empty partial line (status 1). *)
Inductive ReadResult : Type :=
| Line (s : string)
| Eof (partial : string).

(** The world a script runs in: the environment variable it consults,
    what [date +%s] prints, the exit status and standard output of each
    command, and the operator's input. Neither script runs the same
    command twice, so the answer to a command need not depend on the
    moment it is run. *)
Record World : Type := {
  AWS_REGION : option string;
  epoch : string;
  respond : Cmd -> Z * string;
  input : ReadResult
}.

Inductive Outcome (A : Type) : Type :=
| Done (a : A)
| Exited (code : Z).
Arguments Done {A} a.
Arguments Exited {A} code.

(** A script fragment: from the world and the trace so far to a value or
    an exit, and the extended trace. *)
Definition Script (A : Type) : Type :=
  World -> list Event -> Outcome A * list Event.

#[export] Instance script_ret : MRet Script :=
  fun A a _ tr => (Done a, tr).

#[export] Instance script_bind : MBind Script :=
  fun A B f s w tr =>
    match s w tr with
    | (Done a, tr') => f a w tr'
    | (Exited c, tr') => (Exited c, tr')
    end.

Definition exit {A : Type} (code : Z) : Script A :=
  fun _ tr => (Exited code, tr).

Definition emit (e : Event) : Script unit :=
  fun _ tr => (Done tt, tr ++ [e]).

Definition echo (line : string) : Script unit := emit (Echo line).

Definition getenv_AWS_REGION : Script (option string) :=
  fun w tr => (Done (AWS_REGION w), tr).

(** [$(date +%s)] *)
Definition date_epoch : Script string :=
  fun w tr => (Done (epoch w), tr).

(** A command whose status the script itself inspects ([if], [||]):
    status and captured output. *)
Definition try (c : Cmd) : Script (Z * string) :=
  fun w tr => (Done (respond w c), tr ++ [Ran c]).

(** A simple command under [set -e]: a non-zero status ends the script
    with that status. The status returned is what [$?] holds next. *)
Definition run (c : Cmd) : Script (Z * string) :=
  r ← try c;
  if (r.1 =? 0)%Z then mret r else exit r.1.

(** [read -p text -r]: the line goes to [REPLY] as it is. *)
Definition read_line : Script string :=
  fun w tr =>
    match input w with
    | Line s => (Done s, tr)
    | Eof _ => (Exited 1, tr)
    end.

Definition read_reply (text : string) : Script string :=
  emit (Prompt text);; read_line.

(** [${AWS_REGION:-us-east-1}]: the default also replaces an empty value. *)
Definition region_or_default (v : option string) : string :=
  match v with
  | Some r => if String.eqb r "" then "us-east-1" else r
  | None => "us-east-1"
  end.

(** Running a whole script from an empty trace: exit status and trace. *)
Definition exec (s : Script unit) (w : World) : Z * list Event :=
  match s w [] with
  | (Done _, tr) => (0%Z, tr)
  | (Exited c, tr) => (c, tr)
  end.

(** Colour codes, as the scripts spell them. *)
Definition GREEN : string := "\033[0;32m".
Definition BLUE : string := "\033[0;34m".
Definition YELLOW : string := "\033[1;33m".
Definition RED : string := "\033[0;31m".
Definition NC : string := "\033[0m".

End Shell.

(** ** infrastructure/cloudformation/deploy-cloudformation.sh *)

Module Deploy.
Import Shell.
Local Open Scope string_scope.

Definition STACK_NAME : string := "cognito-login-stack".
Definition TEMPLATE_FILE : string :=
  "infrastructure/cloudformation/cognito-auth-stack.yaml".

Definition nl : string := String (ascii_of_nat 10) EmptyString.

Definition banner : Script unit :=
  echo "======================================";;
  echo "AWS Cognito Login - CloudFormation Deployment";;
  echo "======================================";;
  echo "".

(** Step 1. The status test after the command is reached with status 0
    only: a failing command has already ended the script. *)
Definition step1 (REGION : string) : Script unit :=
  echo (BLUE ++ "Step 1: Validating CloudFormation template..." ++ NC);;
  r ← run (Cfn_validate_template TEMPLATE_FILE REGION);
  if (r.1 =? 0)%Z then
    echo (GREEN ++ "✓ Template is valid" ++ NC)
  else
    echo (RED ++ "✗ Template validation failed" ++ NC);; exit 1.

Definition change_set_name (epoch : string) : string :=
  STACK_NAME ++ "-changeset-" ++ epoch.

(** The update branch: a change set is created, awaited, executed, and the
    update awaited. Its value is the status of its last command. *)
Definition update_stack (REGION : string) : Script Z :=
  echo "Stack exists. Updating...";;
  d ← date_epoch;
  let CHANGE_SET_NAME := change_set_name d in
  run (Cfn_create_change_set STACK_NAME CHANGE_SET_NAME TEMPLATE_FILE REGION);;
  echo "Waiting for change set to be created...";;
  run (Cfn_wait_change_set_create_complete STACK_NAME CHANGE_SET_NAME REGION);;
  echo "Executing change set...";;
  run (Cfn_execute_change_set STACK_NAME CHANGE_SET_NAME REGION);;
  echo "Waiting for stack update to complete...";;
  r ← run (Cfn_wait_stack_update_complete STACK_NAME REGION);
  mret r.1.

(** The create branch. *)
Definition create_stack (REGION : string) : Script Z :=
  echo "Creating new stack...";;
  run (Cfn_create_stack STACK_NAME TEMPLATE_FILE REGION);;
  echo "Waiting for stack creation to complete (this may take 10-15 minutes)...";;
  r ← run (Cfn_wait_stack_create_complete STACK_NAME REGION);
  mret r.1.

(** Step 2. The existence check is the status of [describe-stacks], whose
    error output is discarded; nothing of its output is looked at. *)
Definition step2 (REGION : string) : Script unit :=
  echo "";;
  echo (BLUE ++ "Step 2: Deploying CloudFormation stack..." ++ NC);;
  echo ("Stack Name: " ++ STACK_NAME);;
  echo ("Region: " ++ REGION);;
  echo "";;
  probe ← try (Cfn_describe_stacks STACK_NAME REGION);
  status ← (if (probe.1 =? 0)%Z then update_stack REGION
            else create_stack REGION);
  if (status =? 0)%Z then
    echo (GREEN ++ "✓ Stack deployed successfully" ++ NC)
  else
    echo (RED ++ "✗ Stack deployment failed" ++ NC);; exit 1.

(** The values read from the stack's outputs. *)
Record Outputs : Type := {
  USER_POOL_ID : string;
  CLIENT_ID : string;
  BUCKET_NAME : string;
  DISTRIBUTION_ID : string;
  WEBSITE_URL : string
}.

(** Step 3: one query per output key; the text printed by the query is
    taken as it comes. *)
Definition step3 (REGION : string) : Script Outputs :=
  echo "";;
  echo (BLUE ++ "Step 3: Retrieving stack outputs..." ++ NC);;
  pool ← run (Cfn_describe_output STACK_NAME REGION "UserPoolId");
  client ← run (Cfn_describe_output STACK_NAME REGION "UserPoolClientId");
  bucket ← run (Cfn_describe_output STACK_NAME REGION "WebsiteBucketName");
  dist ← run (Cfn_describe_output STACK_NAME REGION "CloudFrontDistributionId");
  url ← run (Cfn_describe_output STACK_NAME REGION "WebsiteURL");
  echo ("User Pool ID: " ++ pool.2);;
  echo ("Client ID: " ++ client.2);;
  echo ("Bucket Name: " ++ bucket.2);;
  echo ("Distribution ID: " ++ dist.2);;
  echo ("Website URL: " ++ url.2);;
  mret {| USER_POOL_ID := pool.2; CLIENT_ID := client.2;
          BUCKET_NAME := bucket.2; DISTRIBUTION_ID := dist.2;
          WEBSITE_URL := url.2 |}.

Definition env_production (o : Outputs) (REGION : string) : string :=
  "REACT_APP_USER_POOL_ID=" ++ USER_POOL_ID o ++ nl ++
  "REACT_APP_USER_POOL_CLIENT_ID=" ++ CLIENT_ID o ++ nl ++
  "REACT_APP_REGION=" ++ REGION ++ nl.

Definition step4 (o : Outputs) (REGION : string) : Script unit :=
  echo "";;
  echo (BLUE ++ "Step 4: Configuring frontend..." ++ NC);;
  emit (Wrote "frontend/.env.production" (env_production o REGION));;
  echo (GREEN ++ "✓ Frontend environment configured" ++ NC).

Definition step5 : Script unit :=
  echo "";;
  echo (BLUE ++ "Step 5: Installing frontend dependencies..." ++ NC);;
  run (Npm_install "frontend");;
  echo (GREEN ++ "✓ Dependencies installed" ++ NC).

Definition step6 : Script unit :=
  echo "";;
  echo (BLUE ++ "Step 6: Building frontend application..." ++ NC);;
  run (Npm_run_build "frontend");;
  echo (GREEN ++ "✓ Frontend built successfully" ++ NC).

Definition BUILD_DIR : string := "frontend/build/".
Definition LONG_CACHE : string := "public, max-age=31536000".
Definition NO_CACHE : string := "no-cache, no-store, must-revalidate".
Definition EXCLUDES : list string :=
  ["index.html"; "asset-manifest.json"; "service-worker.js"].

Definition bucket_url (bucket : string) : string := "s3://" ++ bucket ++ "/".

(** The two transfers of step 7. *)
Definition sync_command (bucket REGION : string) : Cmd :=
  S3_sync BUILD_DIR (bucket_url bucket) REGION LONG_CACHE EXCLUDES.

Definition cp_command (bucket REGION : string) : Cmd :=
  S3_cp (BUILD_DIR ++ "index.html") (bucket_url bucket ++ "index.html")
        REGION NO_CACHE.

Definition step7 (o : Outputs) (REGION : string) : Script unit :=
  echo "";;
  echo (BLUE ++ "Step 7: Deploying frontend to S3..." ++ NC);;
  run (sync_command (BUCKET_NAME o) REGION);;
  run (cp_command (BUCKET_NAME o) REGION);;
  echo (GREEN ++ "✓ Frontend deployed to S3" ++ NC).

Definition step8 (o : Outputs) : Script unit :=
  echo "";;
  echo (BLUE ++ "Step 8: Invalidating CloudFront cache..." ++ NC);;
  inv ← run (Cloudfront_create_invalidation (DISTRIBUTION_ID o) "/*");
  echo ("Invalidation ID: " ++ inv.2);;
  echo "Waiting for CloudFront invalidation to complete...";;
  run (Cloudfront_wait_invalidation_completed (DISTRIBUTION_ID o) inv.2);;
  echo (GREEN ++ "✓ CloudFront cache invalidated" ++ NC).

Definition epilogue (o : Outputs) : Script unit :=
  echo "";;
  echo "======================================";;
  echo (GREEN ++ "Deployment Complete!" ++ NC);;
  echo "======================================";;
  echo "";;
  echo (YELLOW ++ "Your application is now available at:" ++ NC);;
  echo (GREEN ++ WEBSITE_URL o ++ NC);;
  echo "";;
  echo "Note: CloudFront distribution may take 10-15 minutes to fully propagate.";;
  echo "";;
  echo "Configuration saved to: frontend/.env.production";;
  echo "";;
  echo "To update the application in the future, run this script again.";;
  echo "".

(** The script. *)
Definition main : Script unit :=
  banner;;
  v ← getenv_AWS_REGION;
  let REGION := region_or_default v in
  step1 REGION;;
  step2 REGION;;
  o ← step3 REGION;
  step4 o REGION;;
  step5;;
  step6;;
  step7 o REGION;;
  step8 o;;
  epilogue o.

End Deploy.

(** ** The stack deletion script (second part of infrastructure/bin/app.ts) *)

Module Destroy.
Import Re Shell.
Local Open Scope string_scope.

Definition STACK_NAME : string := "cognito-login-stack".

Definition either (a b : ascii) (c : N) : bool := is_char a c || is_char b c.

(** [^[Yy][Ee][Ss]$] *)
Definition yes_re : regex :=
  Regex true
    (Seq (Cls (either "Y" "y"))
      (Seq (Cls (either "E" "e"))
        (Seq (Cls (either "S" "s")) Eol))).

(** [[[ $REPLY =~ ^[Yy][Ee][Ss]$ ]]] *)
Definition confirmed (REPLY : string) : bool := test yes_re (codes REPLY).

Definition banner : Script unit :=
  echo "======================================";;
  echo "AWS Cognito Login - Stack Deletion";;
  echo "======================================";;
  echo "".

Definition warning : Script unit :=
  echo (YELLOW ++ "WARNING: This will delete all resources including:" ++ NC);;
  echo "  - Cognito User Pool and all users";;
  echo "  - S3 Bucket and all files";;
  echo "  - CloudFront Distribution";;
  echo "".

(** The bucket is emptied only when a name was found; a failure of the
    removal is ignored ([|| true]). *)
Definition empty_bucket (BUCKET_NAME REGION : string) : Script unit :=
  if negb (String.eqb BUCKET_NAME "") then
    echo ("Emptying S3 bucket: " ++ BUCKET_NAME);;
    try (S3_rm_recursive ("s3://" ++ BUCKET_NAME ++ "/") REGION);;
    echo (GREEN ++ "✓ S3 bucket emptied" ++ NC)
  else mret tt.

Definition delete_stack (REGION : string) : Script unit :=
  echo "";;
  echo ("Deleting CloudFormation stack: " ++ STACK_NAME);;
  run (Cfn_delete_stack STACK_NAME REGION);;
  echo "Waiting for stack deletion to complete...";;
  run (Cfn_wait_stack_delete_complete STACK_NAME REGION);;
  echo "";;
  echo (GREEN ++ "✓ Stack deleted successfully" ++ NC);;
  echo "";;
  echo "All resources have been removed.";;
  echo "".

(** The script. The bucket name is whatever the query prints: when the
    query fails its error output is discarded and [echo ""] adds nothing. *)
Definition main : Script unit :=
  banner;;
  v ← getenv_AWS_REGION;
  let REGION := region_or_default v in
  warning;;
  REPLY ← read_reply "Are you sure you want to continue? (yes/no): ";
  echo "";;
  if negb (confirmed REPLY) then
    echo "Deletion cancelled.";; exit 0
  else
    echo "Retrieving bucket name...";;
    q ← try (Cfn_describe_output STACK_NAME REGION "WebsiteBucketName");
    let BUCKET_NAME := if (q.1 =? 0)%Z then q.2 else q.2 ++ "" in
    empty_bucket BUCKET_NAME REGION;;
    delete_stack REGION.

End Destroy.

(** ** What the two transfers of step 7 do to the bucket *)

Module Publish.
Import Shell.
Local Open Scope string_scope.

(** Requests that reach the object store. *)
Inductive S3Op : Type :=
| PutObject (key cache_control : string)
| DeleteObject (key : string).

(** [strip_prefix p s] is what follows [p] in [s]. *)
Fixpoint strip_prefix (p s : string) : option string :=
  match p, s with
  | EmptyString, _ => Some s
  | String a p', String b s' =>
      if Ascii.eqb a b then strip_prefix p' s' else None
  | String _ _, EmptyString => None
  end.

Definition mem (k : string) (l : list string) : bool :=
  existsb (String.eqb k) l.

Section Transfer.

(** The files of the build directory, by their path below it. *)
Variable local : list string.
(** The bucket's name and the keys it holds. *)
Variable bucket : string.
Variable remote : list string.
(** The comparison [sync] makes between a file and the object of the
    same key (absent, other size, older): does the file need sending? *)
Variable stale : string -> bool.

(** [aws s3 sync --delete] with [--exclude] filters that are plain
    names: a filtered name is neither sent nor deleted. *)
Definition sync_ops (cache_control : string) (excludes : list string)
  : list S3Op :=
  map (fun k => PutObject k cache_control)
      (List.filter (fun k => negb (mem k excludes) && stale k) local)
  ++ map DeleteObject
      (List.filter (fun k => negb (mem k excludes) && negb (mem k local)) remote).

(** [aws s3 cp] of one file: sent whatever the bucket holds. *)
Definition cp_ops (file key cache_control : string) : list S3Op :=
  if mem file local then [PutObject key cache_control] else [].

(** The requests a command of the deploy script gives rise to. *)
Definition transfer (c : Cmd) : list S3Op :=
  match c with
  | S3_sync src dst _ cache_control excludes =>
      if String.eqb src Deploy.BUILD_DIR
         && String.eqb dst (Deploy.bucket_url bucket)
      then sync_ops cache_control excludes else []
  | S3_cp src dst _ cache_control =>
      match strip_prefix Deploy.BUILD_DIR src,
            strip_prefix (Deploy.bucket_url bucket) dst with
      | Some file, Some key => cp_ops file key cache_control
      | _, _ => []
      end
  | _ => []
  end.

(** Step 7 as a whole. *)
Definition publish (REGION : string) : list S3Op :=
  transfer (Deploy.sync_command bucket REGION)
  ++ transfer (Deploy.cp_command bucket REGION).

End Transfer.

Definition is_put (key cache_control : string) (op : S3Op) : bool :=
  match op with
  | PutObject k c => String.eqb k key && String.eqb c cache_control
  | DeleteObject _ => false
  end.

(** How many uploads of [key] carry the header [cache_control]. *)
Definition uploads (key cache_control : string) (ops : list S3Op) : nat :=
  length (List.filter (is_put key cache_control) ops).

End Publish.

(** ** The credential manager of the user-management API

    The script that manages the API key is not among the sources: what
    follows is taken from the specification (sections 4.2 and 7), with the
    README of the API for the length of the key and for its path. *)

Module UserApi.
Local Open Scope string_scope.

Inductive Error : Type :=
| ValidationError.

Definition MIN_LENGTH : nat := 20.
Definition TARGET_LENGTH : nat := 32.

Definition ALPHABET : list ascii :=
  list_ascii_of_string
    "ABCDEFGHIJKLMNOPQRSTUVWXYZabcdefghijklmnopqrstuvwxyz0123456789".

Definition alphanumeric (a : ascii) : bool :=
  let c := N_of_ascii a in
  ((48 <=? c) && (c <=? 57) || (65 <=? c) && (c <=? 90)
   || (97 <=? c) && (c <=? 122))%N.

(** The minimum-length policy check. *)
Definition meets_policy (c : string) : bool :=
  (MIN_LENGTH <=? String.length c)%nat.

(** The check of what the operator supplies: a value must meet the
    policy; supplying none is in order. *)
Definition validated (supplied : option string) : bool :=
  match supplied with
  | Some c => meets_policy c
  | None => true
  end.

(** The random source: its successive draws. *)
Definition RandomSource : Type := nat -> N.

Definition draw (rnd : RandomSource) (i : nat) : ascii :=
  nth (N.to_nat (rnd i mod 62)) ALPHABET "A"%char.

(** Modelled from the spec: the generator of the deployment script is
    missing; the spec asks for [TARGET_LENGTH] alphanumeric characters
    from a strong random source, here one draw per character. *)
Definition generate (rnd : RandomSource) : string :=
  string_of_list_ascii (map (draw rnd) (seq 0 TARGET_LENGTH)).

(** The secret's path, derived from project and stack name. *)
Definition secret_path (project stack : string) : string :=
  "/" ++ project ++ "/" ++ stack ++ "/api-key".

(** Calls to the secret store. *)
Inductive StoreCall : Type :=
| Read (path : string)
| Write (path value : string) (sensitive : bool).

(** Modelled from the spec: [ensureCredential] of the deployment script is
    missing. Section 7 first: a value supplied by the operator that is too
    short is a ValidationError, reported before any call to the store.
    Then section 4.2: the store is read; a credential found at [path] is
    returned as it is; otherwise the supplied value, or without one the
    generator's value, is written once and returned. The secret store is
    a finite map. *)
Definition ensureCredential (path : string) (supplied : option string)
    (generator : RandomSource -> string) (rnd : RandomSource)
    (store : gmap string string)
  : (Error + string) * gmap string string * list StoreCall :=
  if negb (validated supplied) then (inl ValidationError, store, [])
  else
    match store !! path with
    | Some v => (inr v, store, [Read path])
    | None =>
        let c := match supplied with
                 | Some c => c
                 | None => generator rnd
                 end in
        (inr c, <[path := c]> store, [Read path; Write path c true])
    end.

(** *** Sample inputs *)

Definition EXAMPLE_PATH : string :=
  secret_path "kiro" "kiro-user-management-api".


(** A random source: the draws 0, 7, 14, ... *)
Definition sample_source : RandomSource := fun i => N.of_nat (7 * i).

End UserApi.

(** ** Runs of the two scripts: the commands to expect, and sample worlds *)

Module Runs.
Import Shell.
Local Open Scope string_scope.

Section Of_world.

Variable w : World.

Definition REGION : string := region_or_default (AWS_REGION w).
Definition status (c : Cmd) : Z := (respond w c).1.
Definition output (c : Cmd) : string := (respond w c).2.

Definition validate : Cmd :=
  Cfn_validate_template Deploy.TEMPLATE_FILE REGION.
Definition describe : Cmd :=
  Cfn_describe_stacks Deploy.STACK_NAME REGION.
Definition CHANGE_SET : string := Deploy.change_set_name (epoch w).

(** The commands of the update branch and of the create branch. *)
Definition update_commands : list Cmd :=
  [ Cfn_create_change_set Deploy.STACK_NAME CHANGE_SET
      Deploy.TEMPLATE_FILE REGION;
    Cfn_wait_change_set_create_complete Deploy.STACK_NAME CHANGE_SET REGION;
    Cfn_execute_change_set Deploy.STACK_NAME CHANGE_SET REGION;
    Cfn_wait_stack_update_complete Deploy.STACK_NAME REGION ].

Definition create_commands : list Cmd :=
  [ Cfn_create_stack Deploy.STACK_NAME Deploy.TEMPLATE_FILE REGION;
    Cfn_wait_stack_create_complete Deploy.STACK_NAME REGION ].

Definition query (key : string) : Cmd :=
  Cfn_describe_output Deploy.STACK_NAME REGION key.

(** The output values as the queries print them. *)
Definition outputs : Deploy.Outputs :=
  {| Deploy.USER_POOL_ID := output (query "UserPoolId");
     Deploy.CLIENT_ID := output (query "UserPoolClientId");
     Deploy.BUCKET_NAME := output (query "WebsiteBucketName");
     Deploy.DISTRIBUTION_ID := output (query "CloudFrontDistributionId");
     Deploy.WEBSITE_URL := output (query "WebsiteURL") |}.

Definition invalidate : Cmd :=
  Cloudfront_create_invalidation (Deploy.DISTRIBUTION_ID outputs) "/*".

(** Steps 3 to 8. *)
Definition delivery_commands : list Cmd :=
  [ query "UserPoolId"; query "UserPoolClientId";
    query "WebsiteBucketName"; query "CloudFrontDistributionId";
    query "WebsiteURL";
    Npm_install "frontend"; Npm_run_build "frontend";
    Deploy.sync_command (Deploy.BUCKET_NAME outputs) REGION;
    Deploy.cp_command (Deploy.BUCKET_NAME outputs) REGION;
    invalidate;
    Cloudfront_wait_invalidation_completed
      (Deploy.DISTRIBUTION_ID outputs) (output invalidate) ].

(** A deployment in which nothing fails. *)
Definition full_run : list Cmd :=
  validate :: describe ::
  ((if (status describe =? 0)%Z then update_commands else create_commands)
   ++ delivery_commands)%list.

(** The commands of the deletion script. *)
Definition bucket_query : Cmd :=
  Cfn_describe_output Destroy.STACK_NAME REGION "WebsiteBucketName".
Definition empty_the_bucket : Cmd :=
  S3_rm_recursive ("s3://" ++ output bucket_query ++ "/") REGION.
Definition delete : Cmd := Cfn_delete_stack Destroy.STACK_NAME REGION.
Definition wait_deleted : Cmd :=
  Cfn_wait_stack_delete_complete Destroy.STACK_NAME REGION.

End Of_world.

(** The replies the deletion script takes for a yes. *)
Definition says_yes (reply : string) : Prop :=
  exists y e s : ascii,
    reply = String y (String e (String s EmptyString)) /\
    (y = "Y" \/ y = "y")%char /\ (e = "E" \/ e = "e")%char /\
    (s = "S" \/ s = "s")%char.

(** What the commands print when every output is there. *)
Definition healthy_text (c : Cmd) : string :=
  match c with
  | Cfn_describe_stacks _ _ => "StackStatus: UPDATE_COMPLETE"
  | Cfn_describe_output _ _ "UserPoolId" => "us-east-1_Ab12Cd34E"
  | Cfn_describe_output _ _ "UserPoolClientId" => "1h57kf5cpq17m0eml12EXAMPLE"
  | Cfn_describe_output _ _ "WebsiteBucketName" => "cognito-login-website"
  | Cfn_describe_output _ _ "CloudFrontDistributionId" => "E2QWRUHAPOMQZL"
  | Cfn_describe_output _ _ "WebsiteURL" =>
      "https://d111111abcdef8.cloudfront.net"
  | Cloudfront_create_invalidation _ _ => "I2J0I21PCUYOIK"
  | _ => ""
  end.

(** Every command succeeds. *)
Definition healthy (c : Cmd) : Z * string := (0%Z, healthy_text c).

Definition healthy_world : World :=
  {| AWS_REGION := None; epoch := "1700000000"; respond := healthy;
     input := Eof "" |}.

(** The stack exists and the template is the deployed one: the change set
    has no changes, and the waiter for it fails. *)
Definition unchanged_template_world : World :=
  {| AWS_REGION := None; epoch := "1700000000";
     respond := fun c =>
       (match c with
        | Cfn_wait_change_set_create_complete _ _ _ => 255%Z
        | _ => 0%Z
        end, healthy_text c);
     input := Eof "" |}.

(** The describe call succeeds and reports a status outside the known
    groups. *)
Definition unknown_status_world : World :=
  {| AWS_REGION := None; epoch := "1700000000";
     respond := fun c =>
       (0%Z,
        match c with
        | Cfn_describe_stacks _ _ => "StackStatus: REVIEW_IN_PROGRESS"
        | _ => healthy_text c
        end);
     input := Eof "" |}.


(** No stack: the describe call fails. *)
Definition no_stack_world : World :=
  {| AWS_REGION := None; epoch := "1700000000";
     respond := fun c =>
       (match c with Cfn_describe_stacks _ _ => 254%Z | _ => 0%Z end,
        healthy_text c);
     input := Eof "" |}.

(** The stack has no output [UserPoolId]: the query prints nothing. *)
Definition missing_output_world : World :=
  {| AWS_REGION := None; epoch := "1700000000";
     respond := fun c =>
       (0%Z,
        match c with
        | Cfn_describe_output _ _ "UserPoolId" => ""
        | _ => healthy_text c
        end);
     input := Eof "" |}.

(** The operator's answer to the deletion prompt. *)
Definition answering (reply : string) (r : Cmd -> Z * string) : World :=
  {| AWS_REGION := None; epoch := "1700000000"; respond := r;
     input := Line reply |}.

(** The stack is gone already: the bucket query fails and prints nothing. *)
Definition no_bucket (c : Cmd) : Z * string :=
  (match c with Cfn_describe_output _ _ _ => 254%Z | _ => 0%Z end, "").

End Runs.

(** ** What a run of the deployment script amounts to *)

Module Expect.
Import Shell Runs.
Local Open Scope string_scope.

(** The commands of a list that are run under [set -e], and the status
    the run ends with: everything up to the first command that fails. *)
Fixpoint until_failure (w : World) (cmds : list Cmd) : list Cmd * Z :=
  match cmds with
  | [] => ([], 0%Z)
  | c :: rest =>
      if (status w c =? 0)%Z then
        (c :: (until_failure w rest).1, (until_failure w rest).2)
      else ([c], status w c)
  end.

(** The branch that the probe picks. *)
Definition branch_commands (w : World) : list Cmd :=
  if (status w (describe w) =? 0)%Z then update_commands w
  else create_commands w.

(** The calls and the exit status to expect of the deployment script:
    the validation, then the probe, whose status only picks the branch,
    then the branch and steps 3 to 8 up to the first failure. *)
Definition expected_deployment (w : World) : list Cmd * Z :=
  if (status w (validate w) =? 0)%Z then
    let rest :=
      until_failure w (branch_commands w ++ delivery_commands w)%list in
    (validate w :: describe w :: rest.1, rest.2)
  else ([validate w], status w (validate w)).

(** The line that announces a finished deployment. *)
Definition COMPLETE : string := GREEN ++ "Deployment Complete!" ++ NC.

(** The lines that announce a deleted stack and an emptied bucket. *)
Definition DELETED : string := GREEN ++ "✓ Stack deleted successfully" ++ NC.
Definition EMPTIED : string := GREEN ++ "✓ S3 bucket emptied" ++ NC.

(** The lines a trace echoes, in order. *)
Fixpoint echoed (tr : list Event) : list string :=
  match tr with
  | [] => []
  | Echo l :: tr' => l :: echoed tr'
  | _ :: tr' => echoed tr'
  end.

(** Is the event the echo of the line [l]? *)
Definition is_line (l : string) (e : Event) : bool :=
  match e with
  | Echo l' => String.eqb l' l
  | _ => false
  end.

(** Every command succeeds but the removal of the bucket's objects. *)
Definition removal_fails (c : Cmd) : Z * string :=
  (match c with S3_rm_recursive _ _ => 1%Z | _ => 0%Z end, healthy_text c).

(** The key a request is about. *)
Definition key_of (op : Publish.S3Op) : string :=
  match op with
  | Publish.PutObject k _ => k
  | Publish.DeleteObject k => k
  end.

End Expect.

(** ** Reasoning about scripts piece by piece *)

Module ScriptLogic.
Import Shell Runs Expect.

(** In world [w] the fragment [s] makes the calls [l] and then ends with
    status [rc]: with the value [a] when [rc] is 0, by leaving the script
    otherwise. *)
Definition behaves {A : Type} (w : World) (s : Script A) (l : list Cmd)
    (rc : Z) (a : A) : Prop :=
  forall tr,
    calls (s w tr).2 = (calls tr ++ l)%list /\
    (s w tr).1 = if (rc =? 0)%Z then Done a else Exited rc.

(** [s] runs the commands [cs] under [set -e] and returns [a] if none
    fails. *)
Definition runs_as {A : Type} (w : World) (s : Script A) (cs : list Cmd)
    (a : A) : Prop :=
  behaves w s (until_failure w cs).1 (until_failure w cs).2 a.

(** [s] only adds events that satisfy [E]; it returns values that
    satisfy [Q] and leaves with statuses that satisfy [X]. *)
Definition holds {A : Type} (w : World) (s : Script A) (E : Event -> Prop)
    (Q : A -> Prop) (X : Z -> Prop) : Prop :=
  forall tr, exists ext,
    (s w tr).2 = (tr ++ ext)%list /\ Forall E ext /\
    match (s w tr).1 with Done a => Q a | Exited c => X c end.

(** [s] echoes the line [l] when it gets to its end; otherwise it does
    not, and leaves with a non-zero status. *)
Definition announces {A : Type} (w : World) (s : Script A) (l : string)
    : Prop :=
  forall tr, ~ In (Echo l) tr ->
    match (s w tr).1 with
    | Done _ => In (Echo l) (s w tr).2
    | Exited c => ~ In (Echo l) (s w tr).2 /\ c <> 0%Z
    end.

(** Events that are not an echo in red. *)
Definition red_free (e : Event) : Prop :=
  match e with
  | Echo l => String.prefix RED l = false
  | _ => True
  end.

(** Events that are not the echo of the line [l]. *)
Definition not_line (l : string) (e : Event) : Prop :=
  match e with
  | Echo l' => String.eqb l' l = false
  | _ => True
  end.

(** Neither in red nor the announcement of a finished deployment. *)
Definition plain (e : Event) : Prop := red_free e /\ not_line COMPLETE e.

Definition nonzero (c : Z) : Prop := c <> 0%Z.


End ScriptLogic.

(** ** The other pages of the front end *)

Module Pages.
Import Re Js.

(** How a promise of the identity service settles. *)
Inductive Outcome (A : Type) : Type :=
| Fulfilled (a : A)
| Rejected (err : SignUp.Err).
Arguments Fulfilled {A} a.
Arguments Rejected {A} err.

(** The calls the pages make to the identity service. *)
Inductive Request : Type :=
| SignIn (username password : jsstring)
| ResetPasswordFor (username : jsstring)
| ConfirmResetPassword (username confirmationCode newPassword : jsstring)
| ConfirmSignUp (username confirmationCode : jsstring)
| ResendSignUpCode (username : jsstring)
| GetCurrentUser
| FetchUserAttributes
| SignOut.

(** What a handler does to the outside world, in order. [NavigateLater]
    is a navigation scheduled with [setTimeout]. *)
Inductive Effect : Type :=
| PreventDefault
| Call (r : Request)
| Navigate (path : jsstring) (state_email : option jsstring)
| NavigateLater (ms : N) (path : jsstring) (state_email : option jsstring)
| ConsoleError (label : jsstring) (err : SignUp.Err).

Definition is_call (e : Effect) : bool :=
  match e with Call _ => true | _ => false end.

(** Where an effect leads the browser, now or later. *)
Definition target (e : Effect) : option jsstring :=
  match e with
  | Navigate p _ | NavigateLater _ p _ => Some p
  | _ => None
  end.

(** [location.state?.email || ''] *)
Definition state_email (location_state : option jsstring) : jsstring :=
  match location_state with
  | Some e => or_else e []
  | None => []
  end.

End Pages.

(** *** Login.tsx *)

Module Login.
Import Re Js Pages.

Record FormData : Type := { email : jsstring; password : jsstring }.

Record State : Type := {
  formData : FormData;
  error : jsstring;
  loading : bool
}.

Definition setError (msg : jsstring) (st : State) : State :=
  {| formData := formData st; error := msg; loading := loading st |}.

Definition setLoading (b : bool) (st : State) : State :=
  {| formData := formData st; error := error st; loading := b |}.

(** What [signIn] resolves to, as far as the page reads it. *)
Record SignInOutput : Type := {
  isSignedIn : bool;
  signInStep : jsstring
}.

Definition on_rejected (err : SignUp.Err) (st : State)
  : State * list Effect :=
  if jseq (SignUp.name err) (lit "UserNotConfirmedException") then
    (setError (lit "Please verify your email address before logging in.") st,
     [NavigateLater 2000 (lit "/verify-email") (Some (email (formData st)))])
  else if jseq (SignUp.name err) (lit "NotAuthorizedException") then
    (setError (lit "Incorrect email or password. Please try again.") st, [])
  else if jseq (SignUp.name err) (lit "UserNotFoundException") then
    (setError (lit "No account found with this email. Please sign up.") st, [])
  else
    (setError (or_else (SignUp.message err)
                 (lit "An error occurred during login. Please try again.")) st,
     []).

Definition handleSubmit (signIn : jsstring -> jsstring -> Outcome SignInOutput)
    (st : State) : State * list Effect :=
  let st0 := setError [] st in
  let f := formData st0 in
  if negb (truthy (trim (email f))) || negb (truthy (trim (password f))) then
    (setError (lit "Please enter both email and password") st0,
     [PreventDefault])
  else
    let st1 := setLoading true st0 in
    let call := Call (SignIn (email f) (password f)) in
    match signIn (email f) (password f) with
    | Fulfilled result =>
        let nav :=
          if isSignedIn result then [Navigate (lit "/dashboard") None]
          else if jseq (signInStep result) (lit "CONFIRM_SIGN_UP")
          then [Navigate (lit "/verify-email") (Some (email f))]
          else [] in
        (setLoading false st1, PreventDefault :: call :: nav)
    | Rejected err =>
        let '(st2, later) := on_rejected err st1 in
        (setLoading false st2,
         PreventDefault :: call :: ConsoleError (lit "Login error:") err
           :: later)
    end.

(** A filled-in form, and the refusal of a user who has not confirmed. *)
Definition filled : State :=
  {| formData := {| email := lit "john.doe@example.com";
                    password := lit "Secret1!x" |};
     error := []; loading := false |}.

Definition unconfirmed : SignUp.Err :=
  {| SignUp.name := lit "UserNotConfirmedException";
     SignUp.message := lit "User is not confirmed." |}.

End Login.

(** *** ForgotPassword.tsx *)

Module ForgotPassword.
Import Re Js Pages.

Record State : Type := {
  email : jsstring;
  error : jsstring;
  loading : bool
}.

Definition setError (msg : jsstring) (st : State) : State :=
  {| email := email st; error := msg; loading := loading st |}.

Definition setLoading (b : bool) (st : State) : State :=
  {| email := email st; error := error st; loading := b |}.

(** The pattern is the one of the sign-up page. *)
Definition email_re : regex := SignUp.email_re.

Definition on_rejected (err : SignUp.Err) (st : State) : State :=
  if jseq (SignUp.name err) (lit "UserNotFoundException") then
    setError (lit "No account found with this email address.") st
  else if jseq (SignUp.name err) (lit "LimitExceededException") then
    setError (lit "Too many attempts. Please try again later.") st
  else
    setError (or_else (SignUp.message err)
                (lit "An error occurred. Please try again.")) st.

Definition handleSubmit (resetPassword : jsstring -> Outcome unit)
    (st : State) : State * list Effect :=
  let st0 := setError [] st in
  if negb (truthy (trim (email st0))) then
    (setError (lit "Please enter your email address") st0, [PreventDefault])
  else if negb (test email_re (email st0)) then
    (setError (lit "Please enter a valid email address") st0,
     [PreventDefault])
  else
    let st1 := setLoading true st0 in
    let call := Call (ResetPasswordFor (email st0)) in
    match resetPassword (email st0) with
    | Fulfilled _ =>
        (setLoading false st1,
         [PreventDefault; call;
          Navigate (lit "/reset-password") (Some (email st0))])
    | Rejected err =>
        (setLoading false (on_rejected err st1),
         [PreventDefault; call;
          ConsoleError (lit "Forgot password error:") err])
    end.

(** A filled-in form. *)
Definition filled : State :=
  {| email := lit "john.doe@example.com"; error := []; loading := false |}.

End ForgotPassword.

(** *** ResetPassword.tsx *)

Module ResetPassword.
Import Re Js Pages.

Record FormData : Type := {
  code : jsstring;
  newPassword : jsstring;
  confirmPassword : jsstring
}.

Record State : Type := {
  formData : FormData;
  error : jsstring;
  success : jsstring;
  loading : bool
}.

Definition setError (msg : jsstring) (st : State) : State :=
  {| formData := formData st; error := msg; success := success st;
     loading := loading st |}.

Definition setSuccess (msg : jsstring) (st : State) : State :=
  {| formData := formData st; error := error st; success := msg;
     loading := loading st |}.

Definition setLoading (b : bool) (st : State) : State :=
  {| formData := formData st; error := error st; success := success st;
     loading := b |}.

(** The four patterns are those of the sign-up page. *)
Definition validatePassword (st : State) : bool * State :=
  let f := formData st in
  if (length (newPassword f) <? 8)%nat then
    (false, setError (lit "Password must be at least 8 characters long") st)
  else if negb (test SignUp.lower_re (newPassword f)) then
    (false, setError (lit "Password must contain at least one lowercase letter") st)
  else if negb (test SignUp.upper_re (newPassword f)) then
    (false, setError (lit "Password must contain at least one uppercase letter") st)
  else if negb (test SignUp.digit_re (newPassword f)) then
    (false, setError (lit "Password must contain at least one number") st)
  else if negb (test SignUp.special_re (newPassword f)) then
    (false, setError (lit "Password must contain at least one special character (!@#$%^&*)") st)
  else if negb (jseq (newPassword f) (confirmPassword f)) then
    (false, setError (lit "Passwords do not match") st)
  else (true, st).

Definition on_rejected (err : SignUp.Err) (st : State) : State :=
  if jseq (SignUp.name err) (lit "CodeMismatchException") then
    setError (lit "Invalid verification code. Please check and try again.") st
  else if jseq (SignUp.name err) (lit "ExpiredCodeException") then
    setError (lit "Verification code has expired. Please request a new one.") st
  else if jseq (SignUp.name err) (lit "InvalidPasswordException") then
    setError (or_else (SignUp.message err)
                (lit "Password does not meet requirements")) st
  else
    setError (or_else (SignUp.message err)
                (lit "An error occurred. Please try again.")) st.

(** [location_state] is the e-mail the previous page handed over, if any. *)
Definition handleSubmit (location_state : option jsstring)
    (confirmResetPassword : jsstring -> jsstring -> jsstring -> Outcome unit)
    (st : State) : State * list Effect :=
  let email := state_email location_state in
  let st0 := setSuccess [] (setError [] st) in
  let f := formData st0 in
  if negb (truthy (trim (code f))) then
    (setError (lit "Please enter the verification code") st0,
     [PreventDefault])
  else
    let '(ok, st1) := validatePassword st0 in
    if negb ok then (st1, [PreventDefault])
    else if negb (truthy email) then
      (setError (lit "Email not found. Please start the password reset process again.") st1,
       [PreventDefault])
    else
      let st2 := setLoading true st1 in
      let call := Call (ConfirmResetPassword email (code f) (newPassword f)) in
      match confirmResetPassword email (code f) (newPassword f) with
      | Fulfilled _ =>
          (setLoading false
             (setSuccess (lit "Password reset successfully! Redirecting to login...") st2),
           [PreventDefault; call; NavigateLater 2000 (lit "/login") None])
      | Rejected err =>
          (setLoading false (on_rejected err st2),
           [PreventDefault; call;
            ConsoleError (lit "Reset password error:") err])
      end.

(** A filled-in form. *)
Definition filled : State :=
  {| formData := {| code := lit "123456"; newPassword := lit "Secret1!x";
                    confirmPassword := lit "Secret1!x" |};
     error := []; success := []; loading := false |}.

End ResetPassword.

(** *** VerifyEmail.tsx *)

Module VerifyEmail.
Import Re Js Pages.

Record State : Type := {
  code : jsstring;
  error : jsstring;
  success : jsstring;
  loading : bool;
  resending : bool
}.

Definition setError (msg : jsstring) (st : State) : State :=
  {| code := code st; error := msg; success := success st;
     loading := loading st; resending := resending st |}.

Definition setSuccess (msg : jsstring) (st : State) : State :=
  {| code := code st; error := error st; success := msg;
     loading := loading st; resending := resending st |}.

Definition setLoading (b : bool) (st : State) : State :=
  {| code := code st; error := error st; success := success st;
     loading := b; resending := resending st |}.

Definition setResending (b : bool) (st : State) : State :=
  {| code := code st; error := error st; success := success st;
     loading := loading st; resending := b |}.

Definition on_rejected (err : SignUp.Err) (st : State)
  : State * list Effect :=
  if jseq (SignUp.name err) (lit "CodeMismatchException") then
    (setError (lit "Invalid verification code. Please check and try again.") st,
     [])
  else if jseq (SignUp.name err) (lit "ExpiredCodeException") then
    (setError (lit "Verification code has expired. Please request a new code.") st,
     [])
  else if jseq (SignUp.name err) (lit "NotAuthorizedException") then
    (setError (lit "User is already verified. Please log in.") st,
     [NavigateLater 2000 (lit "/login") None])
  else
    (setError (or_else (SignUp.message err)
                 (lit "An error occurred during verification. Please try again.")) st,
     []).

Definition handleSubmit (location_state : option jsstring)
    (confirmSignUp : jsstring -> jsstring -> Outcome unit)
    (st : State) : State * list Effect :=
  let email := state_email location_state in
  let st0 := setSuccess [] (setError [] st) in
  if negb (truthy (trim (code st0))) then
    (setError (lit "Please enter the verification code") st0,
     [PreventDefault])
  else if negb (truthy email) then
    (setError (lit "Email not found. Please sign up again.") st0,
     [PreventDefault])
  else
    let st1 := setLoading true st0 in
    let call := Call (ConfirmSignUp email (code st0)) in
    match confirmSignUp email (code st0) with
    | Fulfilled _ =>
        (setLoading false
           (setSuccess (lit "Email verified successfully! Redirecting to login...") st1),
         [PreventDefault; call; NavigateLater 2000 (lit "/login") None])
    | Rejected err =>
        let '(st2, later) := on_rejected err st1 in
        (setLoading false st2,
         PreventDefault :: call
           :: ConsoleError (lit "Verification error:") err :: later)
    end.

Definition handleResendCode (location_state : option jsstring)
    (resendSignUpCode : jsstring -> Outcome unit)
    (st : State) : State * list Effect :=
  let email := state_email location_state in
  let st0 := setSuccess [] (setError [] st) in
  if negb (truthy email) then
    (setError (lit "Email not found. Please sign up again.") st0, [])
  else
    let st1 := setResending true st0 in
    let call := Call (ResendSignUpCode email) in
    match resendSignUpCode email with
    | Fulfilled _ =>
        (setResending false
           (setSuccess (lit "Verification code resent! Please check your email.") st1),
         [call])
    | Rejected err =>
        (setResending false
           (setError (or_else (SignUp.message err)
                        (lit "Failed to resend code. Please try again.")) st1),
         [call; ConsoleError (lit "Resend error:") err])
    end.

(** A filled-in form. *)
Definition filled : State :=
  {| code := lit "123456"; error := []; success := []; loading := false;
     resending := false |}.

End VerifyEmail.

(** *** Dashboard.tsx *)

Module Dashboard.
Import Re Js Pages.

Record UserAttributes : Type := {
  email : option jsstring;
  given_name : option jsstring;
  family_name : option jsstring;
  email_verified : option jsstring
}.

Definition no_attributes : UserAttributes :=
  {| email := None; given_name := None; family_name := None;
     email_verified := None |}.

(** The signed-in user, as far as the page shows it. *)
Record User : Type := { userId : jsstring }.

Record State : Type := {
  user : option User;
  attributes : UserAttributes;
  loading : bool
}.

(** The state the component starts in. *)
Definition initial : State :=
  {| user := None; attributes := no_attributes; loading := true |}.

Definition setLoading (b : bool) (st : State) : State :=
  {| user := user st; attributes := attributes st; loading := b |}.

(** [checkUser]: the attributes are fetched only once the user is known;
    either failure sends the browser to the login page. *)
Definition checkUser (getCurrentUser : Outcome User)
    (fetchUserAttributes : Outcome UserAttributes) (st : State)
  : State * list Effect :=
  match getCurrentUser with
  | Fulfilled currentUser =>
      match fetchUserAttributes with
      | Fulfilled userAttributes =>
          (setLoading false
             {| user := Some currentUser; attributes := userAttributes;
                loading := loading st |},
           [Call GetCurrentUser; Call FetchUserAttributes])
      | Rejected err =>
          (setLoading false st,
           [Call GetCurrentUser; Call FetchUserAttributes;
            ConsoleError (lit "Not authenticated:") err;
            Navigate (lit "/login") None])
      end
  | Rejected err =>
      (setLoading false st,
       [Call GetCurrentUser; ConsoleError (lit "Not authenticated:") err;
        Navigate (lit "/login") None])
  end.

Definition handleSignOut (signOut : Outcome unit) : list Effect :=
  match signOut with
  | Fulfilled _ => [Call SignOut; Navigate (lit "/login") None]
  | Rejected err =>
      [Call SignOut; ConsoleError (lit "Error signing out:") err]
  end.

(** Does the page show the profile block? *)
Definition shows_profile (st : State) : bool :=
  negb (loading st) && match user st with Some _ => true | None => false end.

(** The "Email Verified" line says yes for the text [true] only. *)
Definition verified_label (st : State) : bool :=
  match email_verified (attributes st) with
  | Some v => jseq v (lit "true")
  | None => false
  end.

End Dashboard.

(** *** App.tsx *)

Module App.
Import Re Js Pages.

Inductive Page : Type :=
| LoginPage | SignUpPage | VerifyEmailPage | ForgotPasswordPage
| ResetPasswordPage | DashboardPage.

Inductive Element : Type :=
| Show (p : Page)
| Redirect (to : jsstring).

(** The route table. *)
Definition routes : list (jsstring * Element) :=
  [ (lit "/", Redirect (lit "/login"));
    (lit "/login", Show LoginPage);
    (lit "/signup", Show SignUpPage);
    (lit "/verify-email", Show VerifyEmailPage);
    (lit "/forgot-password", Show ForgotPasswordPage);
    (lit "/reset-password", Show ResetPasswordPage);
    (lit "/dashboard", Show DashboardPage) ].

(** The paths the table declares. *)
Definition declared (path : jsstring) : Prop := In path (map fst routes).

(** The request that a sign-up form gives rise to. *)
Definition request (f : SignUp.FormData) : SignUp.SignUpInput :=
  {| SignUp.username := SignUp.email f;
     SignUp.su_password := SignUp.password f;
     SignUp.attr_email := SignUp.email f;
     SignUp.attr_given_name := SignUp.firstName f;
     SignUp.attr_family_name := SignUp.lastName f |}.

(** Where the sign-up handler leads the browser. *)
Definition signup_target (e : SignUp.Effect) : option jsstring :=
  match e with
  | SignUp.Navigate p _ => Some p
  | _ => None
  end.

End App.

(** ** The CDK deployment script: reading the outputs file

    Step 7 of the script reads four values from [outputs.json], each with
    a command substitution of three filters on the file: [grep -o] of the
    quoted key followed by every character up to the next comma, [grep -o]
    of the first colon and the rest of the line, and [tr -d] of the colon,
    the space and the double quote. *)

Module Cdk.

(** A line of text, and a file as its lines. *)
Definition text := list ascii.

Definition dquote : ascii := ascii_of_nat 34.
Definition newline : ascii := ascii_of_nat 10.

Fixpoint starts_with (p l : text) : bool :=
  match p, l with
  | [], _ => true
  | a :: p', b :: l' => Ascii.eqb a b && starts_with p' l'
  | _ :: _, [] => false
  end.

(** The longest run of characters without a comma. *)
Fixpoint until_comma (l : text) : text :=
  match l with
  | [] => []
  | c :: l' => if Ascii.eqb c "," then [] else c :: until_comma l'
  end.

(** The literal part of the first pattern: the key between double quotes. *)
Definition key_pattern (key : string) : text :=
  dquote :: (list_ascii_of_string key ++ [dquote]).
(** [grep -o] of a literal followed by a comma-free run, on one line:
    the matches from left to right, each the longest at its place, none
    overlapping.
    [skip] counts the characters of the last match still to be passed. *)
Fixpoint matches_from (pat : text) (skip : nat) (line : text) : list text :=
  match line with
  | [] => []
  | _ :: rest =>
      match skip with
      | S k => matches_from pat k rest
      | O =>
          if starts_with pat line then
            let found := pat ++ until_comma (drop (length pat) line) in
            found :: matches_from pat (length found - 1) rest
          else matches_from pat 0 rest
      end
  end.

Definition grep_o_key (key : string) (line : text) : list text :=
  matches_from (key_pattern key) 0 line.

(** The second [grep -o], on one line: from the first colon to the end. *)
Fixpoint from_colon (line : text) : text :=
  match line with
  | [] => []
  | c :: rest => if Ascii.eqb c ":" then line else from_colon rest
  end.

Definition grep_o_colon (line : text) : list text :=
  match from_colon line with
  | [] => []
  | found => [found]
  end.

(** The characters that [tr -d] deletes. *)
Definition DELETED : text := [":"%char; " "%char; dquote].

Definition tr_d (line : text) : text :=
  List.filter (fun c => negb (existsb (Ascii.eqb c) DELETED)) line.

(** The three filters on the lines of the file. *)
Definition pipeline (key : string) (file : list text) : list text :=
  map tr_d (flat_map grep_o_colon (flat_map (grep_o_key key) file)).

(** The command substitution: the lines printed, joined by newlines, with
    the newlines at the end taken off. *)
Fixpoint strip_end (out : list text) : list text :=
  match out with
  | [] => []
  | l :: rest =>
      match strip_end rest with
      | [] => match l with [] => [] | _ => [l] end
      | rest' => l :: rest'
      end
  end.

Fixpoint join (out : list text) : text :=
  match out with
  | [] => []
  | [l] => l
  | l :: rest => l ++ newline :: join rest
  end.

Definition extract (key : string) (file : list text) : text :=
  join (strip_end (pipeline key file)).

(** An entry of the outputs file as the CDK writes it: indentation, the
    key and the value between double quotes, and a comma unless the entry
    is the last of its object. *)
Definition entry (indent : nat) (key : string) (value : text) (last : bool)
  : text :=
  repeat " "%char indent ++ key_pattern key ++ ":"%char :: " "%char
    :: dquote :: value ++ dquote :: (if last then [] else [","%char]).

Definition of_string (s : string) : text := list_ascii_of_string s.

(** A line holds a text when the text occurs somewhere in it. *)
Definition occurs (pat line : text) : Prop :=
  exists before after, line = before ++ pat ++ after.

(** An outputs file. *)
Definition sample_outputs : list text :=
  [ of_string "{";
    of_string "  " ++ key_pattern "CognitoLoginStack" ++ of_string ": {";
    entry 4 "UserPoolId" (of_string "us-east-1_Ab12Cd34E") false;
    entry 4 "UserPoolClientId" (of_string "1h57kf5cpq17m0eml12EXAMPLE") false;
    entry 4 "Region" (of_string "us-east-1") false;
    entry 4 "WebsiteURL" (of_string "https://d111111abcdef8.cloudfront.net") true;
    of_string "  }";
    of_string "}" ].

Definition sample_url : text :=
  of_string "https://d111111abcdef8.cloudfront.net".

End Cdk.

(** * Properties *)

(** ** The matcher *)

Module ReFacts.
Import Re.

(** [star p k] succeeds exactly when a run of [p]-characters can be cut
    off the front so that [k] accepts the rest. *)
Lemma star_spec (p : N -> bool) (k : subject -> bool) (s : subject) :
  star p k s = true <->
  exists a b, s = a ++ b /\ forallb p a = true /\ k b = true.
Proof.
  induction s as [|c s IH]; simpl.
  - split.
    + intros H. exists [], []. auto.
    + intros (a & b & E & _ & Hk).
      symmetry in E. apply app_eq_nil in E as [-> ->]. exact Hk.
  - rewrite orb_true_iff, andb_true_iff, IH. split.
    + intros [[Hc (a & b & -> & Ha & Hk)] | Hk].
      * exists (c :: a), b. simpl. rewrite Hc, Ha. auto.
      * exists [], (c :: s). auto.
    + intros (a & b & E & Ha & Hk). destruct a as [|c' a]; simpl in *.
      * right. subst b. exact Hk.
      * injection E as <- ->. apply andb_true_iff in Ha as [Hc Ha].
        left. split; [exact Hc|]. exists a, b. auto.
Qed.

Lemma suffixes_spec (s t : subject) :
  In t (suffixes s) <-> exists pre, s = pre ++ t.
Proof.
  induction s as [|c s IH]; simpl.
  - split.
    + intros [<- | []]. exists []. reflexivity.
    + intros (pre & E). left. symmetry in E.
      apply app_eq_nil in E as [_ ->]. reflexivity.
  - rewrite IH. split.
    + intros [<- | (pre & ->)].
      * exists []. reflexivity.
      * exists (c :: pre). reflexivity.
    + intros (pre & E). destruct pre as [|c' pre]; simpl in E.
      * left. exact E.
      * injection E as <- ->. right. exists pre. reflexivity.
Qed.

End ReFacts.

(** ** The sign-up form *)

Module SignUpFacts.
Import Re Js SignUp ReFacts.

Lemma cls_spec (p : N -> bool) (k : subject -> bool) (s : subject) :
  m (Cls p) k s = true <-> exists c b, s = c :: b /\ p c = true /\ k b = true.
Proof.
  destruct s as [|c s]; simpl.
  - split; [discriminate | intros (c & b & E & _); discriminate].
  - rewrite andb_true_iff. split.
    + intros [Hc Hk]. exists c, s. auto.
    + intros (c' & b & E & Hc & Hk). injection E as <- <-. auto.
Qed.

Lemma plus_spec (p : N -> bool) (k : subject -> bool) (s : subject) :
  m (PlusCls p) k s = true <->
  exists a b, s = a ++ b /\ a <> [] /\ forallb p a = true /\ k b = true.
Proof.
  destruct s as [|c s]; simpl.
  - split; [discriminate|].
    intros (a & b & E & Ha & _). symmetry in E.
    apply app_eq_nil in E as [-> _]. contradiction.
  - rewrite andb_true_iff, star_spec. split.
    + intros [Hc (a & b & -> & Ha & Hk)].
      exists (c :: a), b. simpl. rewrite Hc, Ha. auto.
    + intros (a & b & E & Hne & Ha & Hk).
      destruct a as [|c' a]; [contradiction|].
      simpl in *. injection E as <- ->.
      apply andb_true_iff in Ha as [Hc Ha]. split; [exact Hc|].
      exists a, b. auto.
Qed.

Lemma eol_spec (k : subject -> bool) (s : subject) :
  m Eol k s = true <-> s = [] /\ k [] = true.
Proof.
  destruct s; simpl; split; try discriminate; intuition congruence.
Qed.

Lemma seq_spec (r1 r2 : re) (k : subject -> bool) (s : subject) :
  m (Seq r1 r2) k s = m r1 (m r2 k) s.
Proof. reflexivity. Qed.

Lemma is_char_spec (a : ascii) (c : N) : is_char a c = true <-> c = chr a.
Proof. unfold is_char. apply N.eqb_eq. Qed.

(** The e-mail pattern accepts exactly the strings of the shape
    [local@domain.tld]. *)
Lemma test_email_re (e : jsstring) :
  test email_re e = true <-> email_shape e.
Proof.
  unfold test, email_re, email_shape. cbn [anchored body].
  rewrite seq_spec, plus_spec. split.
  - intros (a & r1 & -> & Ha & Fa & H1).
    rewrite seq_spec in H1. apply cls_spec in H1 as (at_ & r2 & -> & Hat & H2).
    apply is_char_spec in Hat as ->.
    rewrite seq_spec in H2. apply (plus_spec not_space_at) in H2 as (b & r3 & -> & Hb & Fb & H3).
    rewrite seq_spec in H3. apply cls_spec in H3 as (dot_ & r4 & -> & Hdot & H4).
    apply is_char_spec in Hdot as ->.
    apply (plus_spec not_space_at) in H4 as (c & r5 & -> & Hc & Fc & H5).
    change (m Eol (fun _ => true) r5 = true) in H5.
    apply eol_spec in H5 as [-> _].
    exists a, b, c. rewrite app_nil_r. auto 10.
  - intros (a & b & c & -> & Ha & Hb & Hc & Fa & Fb & Fc).
    exists a, (chr "@" :: b ++ chr "." :: c).
    split; [reflexivity|]. split; [exact Ha|]. split; [exact Fa|].
    rewrite seq_spec. apply cls_spec. exists (chr "@"), (b ++ chr "." :: c).
    split; [reflexivity|]. split; [apply is_char_spec; reflexivity|].
    rewrite seq_spec. apply (plus_spec not_space_at).
    exists b, (chr "." :: c).
    split; [reflexivity|]. split; [exact Hb|]. split; [exact Fb|].
    rewrite seq_spec. apply cls_spec. exists (chr "."), c.
    split; [reflexivity|]. split; [apply is_char_spec; reflexivity|].
    apply (plus_spec not_space_at). exists c, []. rewrite app_nil_r.
    split; [reflexivity|]. split; [exact Hc|]. split; [exact Fc|].
    reflexivity.
Qed.

(** A lookahead for a class somewhere ahead finds it exactly when the
    string holds a character of the class. *)
Lemma test_ahead (p : N -> bool) (s : jsstring) :
  test (ahead p) s = true <-> has p s.
Proof.
  unfold test, ahead, has. cbn [anchored body].
  rewrite existsb_exists. split.
  - intros (t & Ht & Hm). apply suffixes_spec in Ht as (pre & ->).
    cbn [m] in Hm. apply andb_true_iff in Hm as [Hm _].
    apply star_spec in Hm as (a & b & -> & _ & Hb).
    apply cls_spec in Hb as (c & b' & -> & Hc & _).
    exists c. split; [|exact Hc].
    apply in_or_app. right. apply in_or_app. right. left. reflexivity.
  - intros (c & Hin & Hc). apply in_split in Hin as (l1 & l2 & ->).
    exists (c :: l2). split.
    + apply suffixes_spec. exists l1. reflexivity.
    + cbn [m star]. rewrite Hc. cbn [andb]. rewrite orb_true_r. reflexivity.
Qed.

Lemma truthy_spec (s : jsstring) : truthy s = true <-> s <> [].
Proof. destruct s; simpl; split; congruence. Qed.

Lemma validateForm_checks (st : State) :
  (validateForm st).1 = checks (formData st).
Proof.
  unfold validateForm, checks.
  repeat match goal with
  | |- context [if negb ?c then _ else _] =>
      destruct c; cbn [negb fst andb]; try reflexivity
  | |- context [if ?c then _ else _] =>
      destruct c; cbn [negb fst andb]; try reflexivity
  end.
Qed.

Lemma checks_acceptable (f : FormData) :
  checks f = true <-> acceptable f.
Proof.
  unfold checks. rewrite !andb_true_iff, negb_true_iff, Nat.ltb_ge.
  rewrite !truthy_spec, test_email_re.
  unfold lower_re, upper_re, digit_re, special_re. rewrite !test_ahead.
  unfold jseq. rewrite bool_decide_eq_true.
  split.
  - intros [[[[[[[[[? ?] ?] ?] ?] ?] ?] ?] ?] ?]. constructor; assumption.
  - intros []. repeat split; assumption.
Qed.

Lemma lit_nonempty (a : ascii) (s : string) : lit (String a s) <> [].
Proof. discriminate. Qed.

(** Every refusal leaves a message. *)
Lemma validateForm_refusal (st : State) :
  (validateForm st).1 = false -> error (validateForm st).2 <> [].
Proof.
  unfold validateForm.
  repeat match goal with
  | |- context [if negb ?c then _ else _] =>
      destruct c; cbn [negb fst snd setError error];
      try (intros _; apply lit_nonempty)
  | |- context [if ?c then _ else _] =>
      destruct c; cbn [negb fst snd setError error];
      try (intros _; apply lit_nonempty)
  end.
  discriminate.
Qed.

Lemma trimStart_nonempty (s : jsstring) :
  trimStart s <> [] <-> exists c, In c s /\ is_space c = false.
Proof.
  induction s as [|c s IH]; simpl.
  - split; [congruence | intros (c & [] & _)].
  - destruct (is_space c) eqn:Hc.
    + rewrite IH. split.
      * intros (x & Hx & Hs). exists x. auto.
      * intros (x & [<- | Hx] & Hs); [congruence|]. exists x. auto.
    + split; [|congruence]. intros _. exists c. auto.
Qed.

Lemma trimStart_keeps (s : jsstring) (c : N) :
  is_space c = false -> In c (trimStart s) <-> In c s.
Proof.
  intros Hc. induction s as [|x s IH]; simpl; [tauto|].
  destruct (is_space x) eqn:Hx; simpl; [|tauto].
  rewrite IH. split; [tauto|]. intros [<- | H]; [congruence | exact H].
Qed.

(** Non-blank after trimming: some character is not white space. *)
Lemma trim_nonempty (s : jsstring) :
  trim s <> [] <-> exists c, In c s /\ is_space c = false.
Proof.
  unfold trim, trimEnd.
  assert (R : forall l : jsstring, rev l <> [] <-> l <> []).
  { intros l. split; intros H E; apply H.
    - subst l. reflexivity.
    - rewrite <- (rev_involutive l), E. reflexivity. }
  rewrite R, trimStart_nonempty. split.
  - intros (c & Hin & Hc). exists c. split; [|exact Hc].
    apply in_rev in Hin. apply (trimStart_keeps s c Hc). exact Hin.
  - intros (c & Hin & Hc). exists c. split; [|exact Hc].
    apply in_rev. rewrite rev_involutive.
    apply (trimStart_keeps s c Hc). exact Hin.
Qed.

Example good_form_passes : (validateForm good_form).1 = true.
Proof. reflexivity. Qed.

Example good_form_signs_up :
  (handleSubmit (fun _ => Resolved) good_form).2 =
  [PreventDefault;
   SignUpCall {| username := lit "john.doe@example.com";
                 su_password := lit "Secret1!x";
                 attr_email := lit "john.doe@example.com";
                 attr_given_name := lit "John";
                 attr_family_name := lit "Doe" |};
   Navigate (lit "/verify-email") (lit "john.doe@example.com")].
Proof. reflexivity. Qed.

(** C9. [validateForm] returns true exactly when the three names are
    non-blank after trimming, the e-mail has the shape of the pattern, the
    password has at least 8 characters with a lowercase letter, an
    uppercase letter, a digit and one of [!@#$%^&*], and both passwords are
    equal; when it returns false, [handleSubmit] leaves a non-empty error
    message and makes no [signUp] call, whatever the service would answer. *)
Theorem validateForm_accepts_exactly_acceptable (st : State) :
  ((validateForm st).1 = true <-> acceptable (formData st)) /\
  ((validateForm st).1 = false ->
   forall signUp : SignUpInput -> Settled,
     error (handleSubmit signUp st).1 <> [] /\
     existsb is_signUp (handleSubmit signUp st).2 = false).
Proof.
  split.
  - rewrite validateForm_checks. apply checks_acceptable.
  - intros Hno signUp. unfold handleSubmit.
    pose proof (validateForm_checks (setError [] st)) as Hc.
    pose proof (validateForm_refusal (setError [] st)) as Hr.
    rewrite validateForm_checks in Hno.
    change (formData (setError [] st)) with (formData st) in Hc.
    rewrite Hno in Hc.
    destruct (validateForm (setError [] st)) as [ok st1].
    cbn [fst snd] in Hc, Hr. subst ok. cbn [negb fst snd].
    split; [apply Hr; reflexivity | reflexivity].
Qed.

Lemma validateForm_accepts_exactly_acceptable_witness :
  (validateForm blank_form).1 = false /\
  error (handleSubmit (fun _ => Resolved) blank_form).1 <> [] /\
  existsb is_signUp (handleSubmit (fun _ => Resolved) blank_form).2 = false.
Proof.
  split; [reflexivity|].
  apply (validateForm_accepts_exactly_acceptable blank_form).
  reflexivity.
Defined.

End SignUpFacts.

(** ** The deployment script *)

Module DeployFacts.
Import Shell Runs.
Local Open Scope string_scope.

(** Unfolds a script down to its nested tests of exit statuses. *)
Ltac unfold_script :=
  cbv [exec Deploy.main Deploy.banner Deploy.step1 Deploy.step2 Deploy.step3
       Deploy.step4 Deploy.step5 Deploy.step6 Deploy.step7 Deploy.step8
       Deploy.epilogue Deploy.update_stack Deploy.create_stack
       Destroy.main Destroy.banner Destroy.warning Destroy.empty_bucket
       Destroy.delete_stack
       mbind script_bind mret script_ret echo emit run try exit
       getenv_AWS_REGION date_epoch read_reply read_line].

(** Reduces what a decided test leaves behind. *)
Ltac settle := cbn [fst snd calls app Z.eqb negb].

(** Decides the tests of exit statuses one after the other: by a known
    fact when there is one, by cases otherwise. *)
Ltac decide_tests :=
  repeat (settle;
    match goal with
    | H : (?x =? 0)%Z = _ |- context [if (?x =? 0)%Z then _ else _] =>
        rewrite H
    | |- context [if (?x =? 0)%Z then _ else _] =>
        destruct (x =? 0)%Z eqn:?
    end);
  settle.

Lemma status_eqb (w : World) (c : Cmd) :
  status w c = 0%Z -> ((respond w c).1 =? 0)%Z = true.
Proof. unfold status. intros ->. reflexivity. Qed.

Lemma status_neqb (w : World) (c : Cmd) :
  status w c <> 0%Z -> ((respond w c).1 =? 0)%Z = false.
Proof. unfold status. intros H. apply Z.eqb_neq. exact H. Qed.

Example healthy_deployment :
  (exec Deploy.main healthy_world).1 = 0%Z /\
  calls (exec Deploy.main healthy_world).2 = full_run healthy_world.
Proof. split; reflexivity. Qed.

Example first_deployment_creates :
  calls (exec Deploy.main no_stack_world).2 = full_run no_stack_world.
Proof. reflexivity. Qed.

(** C7, as the script has it. The five output values are read by five
    queries and none of them is checked: in every world where each command
    other than the existence probe exits with status 0, whatever text the
    queries print (nothing at all for a missing key), the script runs to
    its end with status 0, makes exactly the calls of [full_run] (queries,
    install, build, sync, copy, invalidation) and writes the configuration
    file from the values as printed. *)
Theorem deploy_runs_through_when_commands_succeed (w : World) :
  (forall c, c <> describe w -> status w c = 0%Z) ->
  (exec Deploy.main w).1 = 0%Z /\
  calls (exec Deploy.main w).2 = full_run w /\
  In (Wrote "frontend/.env.production"
        (Deploy.env_production (outputs w) (REGION w)))
     (exec Deploy.main w).2.
Proof.
  intros H.
  assert (Hs : forall c, c <> describe w -> ((respond w c).1 =? 0)%Z = true).
  { intros c Hc. apply status_eqb, H, Hc. }
  unfold full_run, status, update_commands, create_commands,
    delivery_commands, invalidate, outputs, query, output, validate,
    CHANGE_SET, describe, REGION in *.
  unfold_script.
  rewrite (Hs (Cfn_validate_template _ _)) by discriminate.
  destruct ((respond w (Cfn_describe_stacks _ _)).1 =? 0)%Z;
    repeat (rewrite Hs by discriminate; settle);
    (split; [reflexivity | split; [reflexivity |]]);
    cbn [In]; tauto.
Qed.

Lemma deploy_runs_through_when_commands_succeed_witness :
  (exec Deploy.main missing_output_world).1 = 0%Z /\
  calls (exec Deploy.main missing_output_world).2
    = full_run missing_output_world /\
  In (Wrote "frontend/.env.production"
        (Deploy.env_production (outputs missing_output_world)
           (REGION missing_output_world)))
     (exec Deploy.main missing_output_world).2.
Proof.
  apply (deploy_runs_through_when_commands_succeed missing_output_world).
  intros c _. reflexivity.
Defined.

(** C7 fails as stated: with the output [UserPoolId] missing, the pool id
    is empty and the script still builds and publishes, and exits with
    status 0. *)
Lemma missing_output_is_not_fatal :
  Deploy.USER_POOL_ID (outputs missing_output_world) = "" /\
  (exec Deploy.main missing_output_world).1 = 0%Z /\
  In (Npm_run_build "frontend")
     (calls (exec Deploy.main missing_output_world).2) /\
  In (Deploy.sync_command "cognito-login-website" "us-east-1")
     (calls (exec Deploy.main missing_output_world).2).
Proof.
  split; [reflexivity|]. split; [reflexivity|].
  split; vm_compute; tauto.
Qed.

(** C6, as the script has it. Once the template is valid, the existence
    probe is the second call and its exit status alone picks the branch:
    a failing describe call (a stack that is not found included) is
    followed by [create-stack], a succeeding one by [create-change-set],
    whatever it printed; the status text is never looked at. *)
Theorem probe_decides_by_exit_status_alone (w : World) :
  status w (validate w) = 0%Z ->
  exists rest,
    calls (exec Deploy.main w).2
    = validate w :: describe w ::
      (if (status w (describe w) =? 0)%Z
       then Cfn_create_change_set Deploy.STACK_NAME (CHANGE_SET w)
              Deploy.TEMPLATE_FILE (REGION w)
       else Cfn_create_stack Deploy.STACK_NAME Deploy.TEMPLATE_FILE (REGION w))
      :: rest.
Proof.
  intros Hv. apply status_eqb in Hv.
  unfold status, validate, CHANGE_SET, describe, REGION in *.
  unfold_script.
  destruct ((respond w (Cfn_describe_stacks _ _)).1 =? 0)%Z eqn:Hd;
    decide_tests; eexists; reflexivity.
Qed.

Lemma probe_decides_by_exit_status_alone_witness :
  exists rest,
    calls (exec Deploy.main unknown_status_world).2
    = validate unknown_status_world :: describe unknown_status_world ::
      Cfn_create_change_set Deploy.STACK_NAME (CHANGE_SET unknown_status_world)
        Deploy.TEMPLATE_FILE (REGION unknown_status_world)
      :: rest.
Proof.
  apply (probe_decides_by_exit_status_alone unknown_status_world).
  reflexivity.
Defined.

(** C6 fails as stated: a describe call that reports a status outside the
    known groups is no error; the stack is taken as existing, the change
    set is executed and the run ends with status 0. *)
Lemma unknown_status_is_updated :
  output unknown_status_world (describe unknown_status_world)
    = "StackStatus: REVIEW_IN_PROGRESS" /\
  (exec Deploy.main unknown_status_world).1 = 0%Z /\
  calls (exec Deploy.main unknown_status_world).2
    = full_run unknown_status_world /\
  In (Cfn_execute_change_set "cognito-login-stack"
        "cognito-login-stack-changeset-1700000000" "us-east-1")
     (full_run unknown_status_world).
Proof.
  split; [reflexivity|]. split; [reflexivity|]. split; [reflexivity|].
  vm_compute. tauto.
Qed.

(** In the update branch no failure is caught: the first of the four
    commands (create the change set, wait for it, execute it, wait for
    the update) that exits with a non-zero status ends the run with that
    status, and it is the last call made. *)
Lemma update_failure_ends_the_run (w : World) (pre post : list Cmd)
    (c : Cmd) :
  status w (validate w) = 0%Z ->
  status w (describe w) = 0%Z ->
  update_commands w = (pre ++ c :: post)%list ->
  (forall x, In x pre -> status w x = 0%Z) ->
  status w c <> 0%Z ->
  (exec Deploy.main w).1 = status w c /\
  calls (exec Deploy.main w).2 = validate w :: describe w :: (pre ++ [c])%list.
Proof.
  intros Hv Hd Hcut Hpre Hc.
  apply status_eqb in Hv, Hd.
  assert (Hp : forall x, In x pre -> ((respond w x).1 =? 0)%Z = true).
  { intros x Hx. apply status_eqb, Hpre, Hx. }
  clear Hpre.
  pose proof (status_neqb w c Hc) as Hc'.
  unfold update_commands, status, validate, CHANGE_SET, describe, REGION in *.
  destruct pre as [|p1 [|p2 [|p3 [|p4 pre]]]]; cbn [app] in Hcut;
    try (destruct pre; discriminate Hcut);
    injection Hcut as; subst;
    repeat match goal with
    | H : forall x, In x (?p :: ?l) -> _ |- _ =>
        pose proof (H p (or_introl eq_refl));
        assert (forall x, In x l -> ((respond w x).1 =? 0)%Z = true)
          by (intros x Hx; apply H; right; exact Hx);
        clear H
    end;
    unfold_script; decide_tests; split; reflexivity.
Qed.

(** C3, a defect of the update branch. The script and its README tell
    the operator to run the script again to update the application, but
    when the stack exists and the template is the deployed one, the
    change set has no changes, its waiter fails, and under [set -e] the
    run ends there with status 255: the change set is not executed, no
    output is read and nothing is built or published. *)
Theorem unchanged_template_aborts :
  (exec Deploy.main unchanged_template_world).1 = 255%Z /\
  calls (exec Deploy.main unchanged_template_world).2
  = [ Cfn_validate_template
        "infrastructure/cloudformation/cognito-auth-stack.yaml" "us-east-1";
      Cfn_describe_stacks "cognito-login-stack" "us-east-1";
      Cfn_create_change_set "cognito-login-stack"
        "cognito-login-stack-changeset-1700000000"
        "infrastructure/cloudformation/cognito-auth-stack.yaml" "us-east-1";
      Cfn_wait_change_set_create_complete "cognito-login-stack"
        "cognito-login-stack-changeset-1700000000" "us-east-1" ].
Proof. split; reflexivity. Qed.

End DeployFacts.

(** ** The deletion script *)

Module DestroyFacts.
Import Re Shell Runs.
Import DeployFacts.
Local Open Scope string_scope.

Lemma is_char_ascii (a c : ascii) :
  is_char a (N_of_ascii c) = true <-> c = a.
Proof.
  unfold is_char, chr. rewrite N.eqb_eq. split.
  - intros H. apply (f_equal ascii_of_N) in H.
    rewrite !ascii_N_embedding in H. exact H.
  - intros ->. reflexivity.
Qed.

Lemma either_ascii (a b c : ascii) :
  Destroy.either a b (N_of_ascii c) = true <-> c = a \/ c = b.
Proof.
  unfold Destroy.either. rewrite orb_true_iff, !is_char_ascii. tauto.
Qed.

(** The pattern accepts the three letters of yes, each in either case,
    and nothing before or after them. *)
Lemma confirmed_says_yes (reply : string) :
  Destroy.confirmed reply = true <-> says_yes reply.
Proof.
  unfold Destroy.confirmed, says_yes, test, Destroy.yes_re, codes.
  cbn [anchored body m].
  destruct reply as [|y [|e [|s [|x r]]]]; cbn [list_ascii_of_string map].
  - split; [discriminate | intros (? & ? & ? & E & _); discriminate].
  - split.
    + intros H. apply andb_true_iff in H as [_ H]. discriminate.
    + intros (? & ? & ? & E & _); discriminate.
  - split.
    + intros H. apply andb_true_iff in H as [_ H].
      apply andb_true_iff in H as [_ H]. discriminate.
    + intros (? & ? & ? & E & _); discriminate.
  - rewrite !andb_true_iff, !either_ascii. split.
    + intros (Hy & He & Hs & _). exists y, e, s. tauto.
    + intros (y' & e' & s' & E & Hy & He & Hs).
      injection E as -> -> ->. tauto.
  - split.
    + intros H. apply andb_true_iff in H as [_ H].
      apply andb_true_iff in H as [_ H].
      apply andb_true_iff in H as [_ H]. discriminate.
    + intros (? & ? & ? & E & _); discriminate.
Qed.

Example yes_in_any_case :
  Destroy.confirmed "yes" = true /\ Destroy.confirmed "Yes" = true /\
  Destroy.confirmed "YES" = true /\ Destroy.confirmed "yEs" = true.
Proof. repeat split. Qed.

Example other_replies_decline :
  Destroy.confirmed "no" = false /\ Destroy.confirmed "" = false /\
  Destroy.confirmed "y" = false /\ Destroy.confirmed "yes " = false /\
  Destroy.confirmed " yes" = false /\ Destroy.confirmed "yes!" = false.
Proof. repeat split. Qed.

(** C10, as the script has it. When the operator's line is not yes (each
    letter in either case), the script exits with status 0 and has run no
    command at all. When it is, the bucket name is queried; only if a name
    was printed is the bucket emptied, before the stack delete; the delete
    is issued in both cases, and when it succeeds the script waits for the
    deletion and ends with the waiter's status. *)
Theorem deletion_waits_for_yes (w : World) (reply : string) :
  input w = Line reply ->
  (~ says_yes reply ->
     (exec Destroy.main w).1 = 0%Z /\ calls (exec Destroy.main w).2 = []) /\
  (says_yes reply ->
     calls (exec Destroy.main w).2
     = (bucket_query w ::
        (if String.eqb (output w (bucket_query w)) "" then []
         else [empty_the_bucket w]) ++
        delete w ::
        (if (status w (delete w) =? 0)%Z then [wait_deleted w] else []))%list
     /\ (exec Destroy.main w).1
        = (if (status w (delete w) =? 0)%Z then status w (wait_deleted w)
           else status w (delete w))).
Proof.
  intros Hin. rewrite <- confirmed_says_yes.
  unfold bucket_query, empty_the_bucket, delete, wait_deleted, output,
    status, REGION.
  unfold_script. rewrite Hin.
  destruct (Destroy.confirmed reply); settle.
  - split; [intros H; exfalso; apply H; reflexivity | intros _].
    assert (E : forall s : string, s ++ "" = s).
    { induction s as [|a s IH]; [reflexivity|].
      change (String a (s ++ "") = String a s). rewrite IH. reflexivity. }
    set (q := respond w (Cfn_describe_output _ _ _)).
    replace (if (q.1 =? 0)%Z then q.2 else q.2 ++ "") with q.2
      by (destruct (q.1 =? 0)%Z; [reflexivity | symmetry; apply E]).
    destruct (String.eqb q.2 ""); decide_tests;
      repeat match goal with
      | H : (_ =? 0)%Z = true |- _ => apply Z.eqb_eq in H; rewrite ?H
      end;
      split; reflexivity.
  - split; [intros _; split; reflexivity | discriminate].
Qed.

Lemma deletion_waits_for_yes_witness :
  (exec Destroy.main (answering "no" healthy)).1 = 0%Z /\
  calls (exec Destroy.main (answering "no" healthy)).2 = [].
Proof.
  apply (deletion_waits_for_yes (answering "no" healthy) "no").
  - reflexivity.
  - intros (y & e & s & E & _). discriminate E.
Defined.

(** C10 fails as stated: after a yes, when the bucket query prints no
    name, the stack delete is issued with no emptying of the bucket
    before it. *)
Lemma deletion_without_emptying :
  says_yes "yes" /\
  (exec Destroy.main (answering "yes" no_bucket)).1 = 0%Z /\
  calls (exec Destroy.main (answering "yes" no_bucket)).2
  = [ Cfn_describe_output "cognito-login-stack" "us-east-1"
        "WebsiteBucketName";
      Cfn_delete_stack "cognito-login-stack" "us-east-1";
      Cfn_wait_stack_delete_complete "cognito-login-stack" "us-east-1" ].
Proof.
  split; [apply confirmed_says_yes; reflexivity|]. split; reflexivity.
Qed.

End DestroyFacts.

(** ** Publishing the build *)

Module PublishFacts.
Import Shell Publish.
Local Open Scope string_scope.

Lemma strip_prefix_app (p s : string) : strip_prefix p (p ++ s) = Some s.
Proof.
  induction p as [|a p IH]; [destruct s; reflexivity|].
  change (strip_prefix (String a p) (String a (p ++ s)) = Some s).
  cbn [strip_prefix]. rewrite Ascii.eqb_refl. exact IH.
Qed.

Lemma mem_In (k : string) (l : list string) : mem k l = true <-> In k l.
Proof.
  unfold mem. rewrite existsb_exists. split.
  - intros (x & Hx & E). apply String.eqb_eq in E. subst x. exact Hx.
  - intros H. exists k. split; [exact H | apply String.eqb_refl].
Qed.

Example publish_fresh_bucket :
  publish ["index.html"; "main.js"; "sw.js"] "cognito-login-website" []
    (fun _ => true) "us-east-1"
  = [ PutObject "main.js" Deploy.LONG_CACHE;
      PutObject "sw.js" Deploy.LONG_CACHE;
      PutObject "index.html" Deploy.NO_CACHE ].
Proof. reflexivity. Qed.

(** C2, a defect of step 7. The script announces the upload of
    [index.html] and [service-worker.js] without caching, but the sync
    leaves [service-worker.js] out and the one copy that follows is of
    [index.html]: for a build of [index.html], [main.js] and
    [service-worker.js] and an empty bucket, the requests are the upload
    of [main.js] under the long-lived header, then that of [index.html]
    under the no-cache header, and the service worker is not uploaded at
    all, under neither header. *)
Theorem service_worker_is_not_uploaded :
  publish ["index.html"; "main.js"; "service-worker.js"]
    "cognito-login-website" [] (fun _ => true) "us-east-1"
  = [ PutObject "main.js" Deploy.LONG_CACHE;
      PutObject "index.html" Deploy.NO_CACHE ] /\
  uploads "service-worker.js" Deploy.NO_CACHE
    (publish ["index.html"; "main.js"; "service-worker.js"]
       "cognito-login-website" [] (fun _ => true) "us-east-1") = 0 /\
  uploads "service-worker.js" Deploy.LONG_CACHE
    (publish ["index.html"; "main.js"; "service-worker.js"]
       "cognito-login-website" [] (fun _ => true) "us-east-1") = 0 /\
  uploads "index.html" Deploy.NO_CACHE
    (publish ["index.html"; "main.js"; "service-worker.js"]
       "cognito-login-website" [] (fun _ => true) "us-east-1") = 1.
Proof. repeat split. Qed.

End PublishFacts.

(** ** The credential manager of the user-management API *)

Module UserApiFacts.
Import UserApi.
Local Open Scope string_scope.

(** *** Credential Manager *)






Example first_run_generates_second_reuses :
  let r1 := ensureCredential EXAMPLE_PATH None generate sample_source ∅ in
  let r2 := ensureCredential EXAMPLE_PATH None generate
              (fun i => N.of_nat (11 * i)) r1.1.2 in
  r1.1.1 = inr "AHOVcjqx4BIPWdkry5CJQXelsz6DKRYf" /\
  r2.1.1 = r1.1.1 /\ r2.2 = [Read EXAMPLE_PATH].
Proof. repeat split. Qed.

(** A value of the operator that is too short is refused before the store
    is read, also when the store is empty. *)
Example short_value_is_refused_unread :
  ensureCredential EXAMPLE_PATH (Some "too-short") generate sample_source ∅
  = (inl ValidationError, ∅, []).
Proof. reflexivity. Qed.

(** *** The generator *)

Lemma length_string_of_list_ascii (l : list ascii) :
  String.length (string_of_list_ascii l) = length l.
Proof. induction l as [|a l IH]; [reflexivity | cbn; rewrite IH; reflexivity]. Qed.

Lemma draw_alphanumeric (rnd : RandomSource) (i : nat) :
  alphanumeric (draw rnd i) = true.
Proof.
  unfold draw.
  assert (A : forallb alphanumeric ALPHABET = true) by reflexivity.
  rewrite forallb_forall in A. apply A. apply nth_In.
  change (length ALPHABET) with 62.
  pose proof (N.mod_upper_bound (rnd i) 62). lia.
Qed.

Lemma generate_length (rnd : RandomSource) :
  String.length (generate rnd) = TARGET_LENGTH.
Proof.
  unfold generate.
  rewrite length_string_of_list_ascii, length_map, length_seq. reflexivity.
Qed.

Lemma generate_alphanumeric (rnd : RandomSource) :
  forallb alphanumeric (list_ascii_of_string (generate rnd)) = true.
Proof.
  unfold generate. rewrite list_ascii_of_string_of_list_ascii.
  apply forallb_forall. intros a Ha.
  apply in_map_iff in Ha as (i & <- & _). apply draw_alphanumeric.
Qed.

(** C8. When no credential exists at the path and the operator supplies
    none, the credential the manager returns is the generated one: it has
    at least 32 characters (exactly 32), all of them alphanumeric, and it
    passes the 20-character minimum policy check. *)
Theorem generated_credential_meets_policy (path : string)
    (rnd : RandomSource) (store : gmap string string) :
  store !! path = None ->
  exists c,
    (ensureCredential path None generate rnd store).1.1 = inr c /\
    32 <= String.length c /\
    forallb alphanumeric (list_ascii_of_string c) = true /\
    meets_policy c = true.
Proof.
  intros H. exists (generate rnd). unfold ensureCredential.
  cbn [validated negb]. rewrite H.
  cbn [fst]. split; [reflexivity|].
  pose proof (generate_length rnd) as L. unfold TARGET_LENGTH in L.
  split; [lia|]. split; [apply generate_alphanumeric|].
  unfold meets_policy, MIN_LENGTH. rewrite L. reflexivity.
Qed.

Lemma generated_credential_meets_policy_witness :
  exists c,
    (ensureCredential EXAMPLE_PATH None generate sample_source ∅).1.1
      = inr c /\
    32 <= String.length c /\
    forallb alphanumeric (list_ascii_of_string c) = true /\
    meets_policy c = true.
Proof.
  apply (generated_credential_meets_policy EXAMPLE_PATH sample_source ∅).
  reflexivity.
Defined.

End UserApiFacts.

(** ** Rules for scripts *)

Module ScriptRules.
Import Shell Runs Expect ScriptLogic.
Local Open Scope string_scope.

Lemma calls_app (a b : list Event) :
  calls (a ++ b)%list = (calls a ++ calls b)%list.
Proof.
  induction a as [|e a IH]; [reflexivity|].
  destruct e; cbn [app calls]; rewrite IH; reflexivity.
Qed.

(** The status [until_failure] ends with is 0 exactly when no command
    failed. *)
Lemma until_failure_ok (w : World) (cs : list Cmd) :
  (until_failure w cs).2 = 0%Z <->
  (forall c, In c cs -> status w c = 0%Z).
Proof.
  induction cs as [|c cs IH]; cbn [until_failure].
  - split; [intros _ x [] | reflexivity].
  - destruct (status w c =? 0)%Z eqn:E; cbn [snd].
    + apply Z.eqb_eq in E. rewrite IH. split.
      * intros H x [<- | Hx]; [exact E | apply H, Hx].
      * intros H x Hx. apply H. right. exact Hx.
    + apply Z.eqb_neq in E. split; [contradiction|].
      intros H. exfalso. apply E, H. left. reflexivity.
Qed.


Lemma until_failure_app (w : World) (a b : list Cmd) :
  until_failure w (a ++ b)%list
  = if ((until_failure w a).2 =? 0)%Z
    then ((until_failure w a).1 ++ (until_failure w b).1,
          (until_failure w b).2)%list
    else until_failure w a.
Proof.
  induction a as [|c a IH]; cbn [app until_failure].
  - cbn [fst snd Z.eqb app]. destruct (until_failure w b). reflexivity.
  - destruct (status w c =? 0)%Z eqn:E; cbn [fst snd].
    + rewrite IH. destruct ((until_failure w a).2 =? 0)%Z; [reflexivity|].
      destruct (until_failure w a). reflexivity.
    + apply Z.eqb_neq in E. apply Z.eqb_neq in E as E'. rewrite E'.
      reflexivity.
Qed.

Section Rules.

Context {A B : Type} (w : World).

Lemma behaves_ret (a : A) : behaves w (mret a) [] 0 a.
Proof. intros tr. cbn. rewrite app_nil_r. split; reflexivity. Qed.

Lemma behaves_emit (e : Event) :
  (forall c, e <> Ran c) -> behaves w (emit e) [] 0 tt.
Proof.
  intros He tr. unfold emit. cbn [fst snd Z.eqb].
  rewrite calls_app, app_nil_r. split; [|reflexivity].
  destruct e; cbn [calls]; try (rewrite app_nil_r; reflexivity).
  exfalso. exact (He c eq_refl).
Qed.

Lemma behaves_echo (l : string) : behaves w (echo l) [] 0 tt.
Proof. apply behaves_emit. discriminate. Qed.

Lemma behaves_try (c : Cmd) : behaves w (try c) [c] 0 (respond w c).
Proof.
  intros tr. unfold try. cbn [fst snd Z.eqb].
  rewrite calls_app. split; reflexivity.
Qed.

Lemma behaves_run (c : Cmd) :
  behaves w (run c) [c] (status w c) (respond w c).
Proof.
  intros tr. unfold run, mbind, script_bind, try, mret, script_ret, exit,
    status.
  destruct ((respond w c).1 =? 0)%Z; cbn [fst snd];
    rewrite calls_app; split; reflexivity.
Qed.

Lemma runs_as_run (c : Cmd) : runs_as w (run c) [c] (respond w c).
Proof.
  unfold runs_as. cbn [until_failure].
  destruct (status w c =? 0)%Z eqn:E; cbn [fst snd].
  - apply Z.eqb_eq in E. pose proof (behaves_run c) as H.
    rewrite E in H. exact H.
  - apply behaves_run.
Qed.

Lemma behaves_getenv : behaves w getenv_AWS_REGION [] 0 (AWS_REGION w).
Proof. intros tr. cbn. rewrite app_nil_r. split; reflexivity. Qed.

Lemma behaves_date : behaves w date_epoch [] 0 (epoch w).
Proof. intros tr. cbn. rewrite app_nil_r. split; reflexivity. Qed.

(** Sequencing after a fragment that gets to its end. *)
Lemma behaves_bind (s : Script A) (f : A -> Script B) (l l' : list Cmd)
    (rc : Z) (a : A) (b : B) :
  behaves w s l 0 a -> behaves w (f a) l' rc b ->
  behaves w (s ≫= f) (l ++ l')%list rc b.
Proof.
  intros Hs Hf tr. destruct (Hs tr) as [Hc Hr]. cbn [Z.eqb] in Hr.
  unfold mbind, script_bind. destruct (s w tr) as [[x | c] tr'];
    cbn [fst snd] in *; [|discriminate Hr].
  injection Hr as ->. destruct (Hf tr') as [Hc' Hr'].
  rewrite Hc', Hc, app_assoc. split; [reflexivity | exact Hr'].
Qed.

(** Sequencing after a fragment that leaves the script. *)
Lemma behaves_bind_exit (s : Script A) (f : A -> Script B) (l : list Cmd)
    (rc : Z) (a : A) (b : B) :
  rc <> 0%Z -> behaves w s l rc a -> behaves w (s ≫= f) l rc b.
Proof.
  intros Hrc Hs tr. destruct (Hs tr) as [Hc Hr].
  apply Z.eqb_neq in Hrc. rewrite Hrc in *.
  unfold mbind, script_bind. destruct (s w tr) as [[x | c] tr'];
    cbn [fst snd] in *; [discriminate Hr|].
  injection Hr as ->. split; [exact Hc | reflexivity].
Qed.

(** Sequencing under [set -e]: what follows matters only if nothing
    failed before. *)
Lemma runs_as_bind (s : Script A) (f : A -> Script B) (cs cs' : list Cmd)
    (a : A) (b : B) :
  runs_as w s cs a ->
  ((until_failure w cs).2 = 0%Z -> runs_as w (f a) cs' b) ->
  runs_as w (s ≫= f) (cs ++ cs')%list b.
Proof.
  unfold runs_as. intros Hs Hf. rewrite until_failure_app.
  destruct ((until_failure w cs).2 =? 0)%Z eqn:E.
  - apply Z.eqb_eq in E. rewrite E in Hs. cbn [fst snd].
    apply (behaves_bind _ _ _ _ _ a); [exact Hs | exact (Hf E)].
  - apply Z.eqb_neq in E. apply (behaves_bind_exit _ _ _ _ a); assumption.
Qed.

(** The same after calls [l0] whose statuses did not matter. *)
Lemma runs_from_bind (s : Script A) (f : A -> Script B)
    (l0 cs cs' : list Cmd) (a : A) (b : B) :
  behaves w s (l0 ++ (until_failure w cs).1)%list (until_failure w cs).2 a ->
  ((until_failure w cs).2 = 0%Z -> runs_as w (f a) cs' b) ->
  behaves w (s ≫= f) (l0 ++ (until_failure w (cs ++ cs')).1)%list
    (until_failure w (cs ++ cs')).2 b.
Proof.
  unfold runs_as. intros Hs Hf. rewrite until_failure_app.
  destruct ((until_failure w cs).2 =? 0)%Z eqn:E.
  - apply Z.eqb_eq in E. rewrite E in Hs. cbn [fst snd].
    rewrite app_assoc.
    apply (behaves_bind _ _ _ _ _ a); [exact Hs | exact (Hf E)].
  - apply Z.eqb_neq in E. apply (behaves_bind_exit _ _ _ _ a); assumption.
Qed.

Lemma runs_as_quiet (s : Script A) (a : A) :
  behaves w s [] 0 a -> runs_as w s [] a.
Proof. intros H. exact H. Qed.

Lemma runs_as_bind_quiet (s : Script A) (f : A -> Script B)
    (cs : list Cmd) (a : A) (b : B) :
  behaves w s [] 0 a -> runs_as w (f a) cs b -> runs_as w (s ≫= f) cs b.
Proof.
  intros Hs Hf. apply (runs_as_bind s f [] cs a b); [exact Hs | intros _; exact Hf].
Qed.

End Rules.

Lemma runs_as_bind_run {B : Type} (w : World) (c : Cmd)
    (f : Z * string -> Script B) (cs : list Cmd) (b : B) :
  (status w c = 0%Z -> runs_as w (f (respond w c)) cs b) ->
  runs_as w (run c ≫= f) (c :: cs) b.
Proof.
  intros Hf. apply (runs_as_bind w (run c) f [c] cs (respond w c) b).
  - apply runs_as_run.
  - intros H. apply Hf. apply (until_failure_ok w [c]); [exact H|].
    left. reflexivity.
Qed.

(** Fragments without a call. *)
Ltac quiet :=
  first [ apply behaves_echo | apply behaves_ret | apply behaves_getenv
        | apply behaves_date | apply behaves_emit; discriminate ].

(** Straight-line fragments: quiet steps and commands under [set -e]; a
    test of the status of a command that has succeeded is decided. *)
Ltac straight :=
  repeat first
    [ eapply runs_as_bind_quiet; [solve [quiet] | cbv beta]
    | apply runs_as_bind_run;
      let H := fresh "Hok" in
      intros H; cbv beta;
      try rewrite (DeployFacts.status_eqb _ _ H)
    | apply runs_as_quiet; solve [quiet]
    | apply runs_as_run ].

End ScriptRules.

(** ** Rules for what a script may emit *)

Module EmitRules.
Import Shell Runs Expect ScriptLogic.
Local Open Scope string_scope.

Section Rules.

Context {A B : Type} (w : World) (E : Event -> Prop) (X : Z -> Prop).

Lemma holds_ret (Q : A -> Prop) (a : A) : Q a -> holds w (mret a) E Q X.
Proof.
  intros Ha tr. exists []. rewrite app_nil_r.
  split; [reflexivity|]. split; [constructor | exact Ha].
Qed.

Lemma holds_exit (Q : A -> Prop) (c : Z) : X c -> holds w (exit c) E Q X.
Proof.
  intros Hc tr. exists []. rewrite app_nil_r.
  split; [reflexivity|]. split; [constructor | exact Hc].
Qed.

Lemma holds_emit (e : Event) : E e -> holds w (emit e) E (fun _ => True) X.
Proof.
  intros He tr. exists [e]. split; [reflexivity|].
  split; [repeat constructor; exact He | exact I].
Qed.

Lemma holds_echo (l : string) :
  E (Echo l) -> holds w (echo l) E (fun _ => True) X.
Proof. apply holds_emit. Qed.

Lemma holds_getenv : holds w getenv_AWS_REGION E (fun _ => True) X.
Proof.
  intros tr. exists []. rewrite app_nil_r.
  split; [reflexivity|]. split; [constructor | exact I].
Qed.

Lemma holds_date : holds w date_epoch E (fun _ => True) X.
Proof.
  intros tr. exists []. rewrite app_nil_r.
  split; [reflexivity|]. split; [constructor | exact I].
Qed.

Lemma holds_try (c : Cmd) :
  E (Ran c) -> holds w (try c) E (fun _ => True) X.
Proof.
  intros He tr. exists [Ran c]. split; [reflexivity|].
  split; [repeat constructor; exact He | exact I].
Qed.

(** A command under [set -e]: it returns with status 0 or leaves with
    its non-zero status. *)
Lemma holds_run (c : Cmd) :
  E (Ran c) -> (forall rc, rc <> 0%Z -> X rc) ->
  holds w (run c) E (fun r => r.1 = 0%Z) X.
Proof.
  intros He Hx tr. exists [Ran c].
  unfold run, mbind, script_bind, try, mret, script_ret, exit.
  destruct ((respond w c).1 =? 0)%Z eqn:Ec; cbn [fst snd].
  - split; [reflexivity|]. split; [repeat constructor; exact He|].
    apply Z.eqb_eq, Ec.
  - split; [reflexivity|]. split; [repeat constructor; exact He|].
    apply Hx. apply Z.eqb_neq, Ec.
Qed.

Lemma holds_bind (s : Script A) (f : A -> Script B) (Q : A -> Prop)
    (R : B -> Prop) :
  holds w s E Q X -> (forall a, Q a -> holds w (f a) E R X) ->
  holds w (s ≫= f) E R X.
Proof.
  intros Hs Hf tr. destruct (Hs tr) as (ext & He & HE & Hq).
  unfold mbind, script_bind.
  destruct (s w tr) as [[a | c] tr']; cbn [fst snd] in *; subst tr'.
  - destruct (Hf a Hq (tr ++ ext)%list) as (ext' & He' & HE' & Hr).
    exists (ext ++ ext')%list. rewrite He', app_assoc.
    split; [reflexivity|]. split; [|exact Hr].
    apply Forall_app. split; assumption.
  - exists ext. split; [reflexivity|]. split; assumption.
Qed.

Lemma holds_post (s : Script A) (Q Q' : A -> Prop) :
  holds w s E Q X -> (forall a, Q a -> Q' a) -> holds w s E Q' X.
Proof.
  intros Hs Hq tr. destruct (Hs tr) as (ext & He & HE & H).
  exists ext. split; [exact He|]. split; [exact HE|].
  destruct (s w tr).1; [apply Hq, H | exact H].
Qed.

End Rules.

Lemma holds_events {A : Type} (w : World) (s : Script A)
    (E E' : Event -> Prop) (Q : A -> Prop) (X : Z -> Prop) :
  holds w s E Q X -> (forall e, E e -> E' e) -> holds w s E' Q X.
Proof.
  intros Hs HE tr. destruct (Hs tr) as (ext & He & HF & H).
  assert (HF' : Forall E' ext) by (clear He; induction HF; constructor; auto).
  exists ext. split; [exact He|]. split; [exact HF' | exact H].
Qed.

Lemma not_line_In (l : string) (tr : list Event) :
  Forall (not_line l) tr -> ~ In (Echo l) tr.
Proof.
  intros HF Hin. induction HF as [|e tr He HF IH]; [destruct Hin|].
  destruct Hin as [-> | Hin]; [|exact (IH Hin)].
  cbn in He. rewrite String.eqb_refl in He. discriminate He.
Qed.

(** What comes before the announcement does not make it. *)
Lemma announces_bind {A B : Type} (w : World) (s : Script A)
    (f : A -> Script B) (Q : A -> Prop) (l : string) :
  holds w s (not_line l) Q nonzero ->
  (forall a, Q a -> announces w (f a) l) ->
  announces w (s ≫= f) l.
Proof.
  intros Hs Hf tr Htr. destruct (Hs tr) as (ext & He & HE & Hq).
  assert (Hno : ~ In (Echo l) (tr ++ ext)%list).
  { intros H. apply in_app_or in H as [H | H]; [exact (Htr H)|].
    exact (not_line_In l ext HE H). }
  unfold mbind, script_bind.
  destruct (s w tr) as [[a | c] tr']; cbn [fst snd] in *; subst tr'.
  - exact (Hf a Hq _ Hno).
  - split; [exact Hno | exact Hq].
Qed.

(** Decides the side conditions on single events. *)
Ltac event_ok :=
  first [ exact I | reflexivity | split; first [exact I | reflexivity] ].

(** Walks through a fragment made of echoes, commands under [set -e] and
    tests of the status of a command that has succeeded. *)
Ltac walk :=
  repeat first
    [ apply holds_bind with (Q := fun r : Z * string => r.1 = 0%Z);
      [ apply holds_run; [event_ok | intros ? H; exact H]
      | let r := fresh "r" in
        let Hr := fresh "Hr" in
        intros r Hr; cbv beta; try rewrite Hr; cbn [Z.eqb] ]
    | apply holds_bind with (Q := fun _ : unit => True);
      [ apply holds_emit; event_ok | intros _ _ ]
    | apply holds_bind with (Q := fun _ : string => True);
      [ apply holds_date | intros ? _; cbv beta zeta ]
    | apply holds_bind with (Q := fun _ : option string => True);
      [ apply holds_getenv | intros ? _; cbv beta zeta ]
    | apply holds_bind with (Q := fun _ : Z * string => True);
      [ apply holds_try; event_ok | intros ? _; cbv beta ]
    | apply holds_emit; event_ok
    | eapply holds_post; [apply holds_run; [event_ok | intros ? H; exact H]
                         | intros ? ?; exact I ]
    | apply holds_ret; first [exact I | assumption | reflexivity] ].

End EmitRules.

(** ** The deployment script, step by step *)

Module DeploySteps.
Import Shell Runs Expect ScriptLogic ScriptRules.
Local Open Scope string_scope.

Section In_world.

Variable w : World.

Lemma step1_runs :
  runs_as w (Deploy.step1 (REGION w)) [validate w] tt.
Proof. unfold Deploy.step1, validate. straight. Qed.

Lemma update_stack_runs :
  runs_as w (Deploy.update_stack (REGION w)) (update_commands w)
    (status w (Cfn_wait_stack_update_complete Deploy.STACK_NAME (REGION w))).
Proof.
  unfold Deploy.update_stack, update_commands, CHANGE_SET.
  straight.
Qed.

Lemma create_stack_runs :
  runs_as w (Deploy.create_stack (REGION w)) (create_commands w)
    (status w (Cfn_wait_stack_create_complete Deploy.STACK_NAME (REGION w))).
Proof.
  unfold Deploy.create_stack, create_commands.
  straight.
Qed.

Lemma step3_runs :
  runs_as w (Deploy.step3 (REGION w))
    [ query w "UserPoolId"; query w "UserPoolClientId";
      query w "WebsiteBucketName"; query w "CloudFrontDistributionId";
      query w "WebsiteURL" ]
    (outputs w).
Proof. unfold Deploy.step3, query, outputs, output. straight. Qed.

Lemma step4_runs (o : Deploy.Outputs) :
  runs_as w (Deploy.step4 o (REGION w)) [] tt.
Proof. unfold Deploy.step4. straight. Qed.

Lemma step5_runs : runs_as w Deploy.step5 [Npm_install "frontend"] tt.
Proof. unfold Deploy.step5. straight. Qed.

Lemma step6_runs : runs_as w Deploy.step6 [Npm_run_build "frontend"] tt.
Proof. unfold Deploy.step6. straight. Qed.

Lemma step7_runs (o : Deploy.Outputs) :
  runs_as w (Deploy.step7 o (REGION w))
    [ Deploy.sync_command (Deploy.BUCKET_NAME o) (REGION w);
      Deploy.cp_command (Deploy.BUCKET_NAME o) (REGION w) ] tt.
Proof. unfold Deploy.step7. straight. Qed.

Lemma step8_runs (o : Deploy.Outputs) :
  runs_as w (Deploy.step8 o)
    [ Cloudfront_create_invalidation (Deploy.DISTRIBUTION_ID o) "/*";
      Cloudfront_wait_invalidation_completed (Deploy.DISTRIBUTION_ID o)
        (output w (Cloudfront_create_invalidation
                     (Deploy.DISTRIBUTION_ID o) "/*")) ] tt.
Proof. unfold Deploy.step8, output. straight. Qed.

Lemma epilogue_runs (o : Deploy.Outputs) :
  runs_as w (Deploy.epilogue o) [] tt.
Proof. unfold Deploy.epilogue. straight. Qed.

(** Steps 3 to 8 and the closing lines. *)
Lemma delivery_runs :
  runs_as w
    (o ← Deploy.step3 (REGION w);
     Deploy.step4 o (REGION w);; Deploy.step5;; Deploy.step6;;
     Deploy.step7 o (REGION w);; Deploy.step8 o;; Deploy.epilogue o)
    (delivery_commands w) tt.
Proof.
  apply (runs_as_bind w _ _
           [ query w "UserPoolId"; query w "UserPoolClientId";
             query w "WebsiteBucketName"; query w "CloudFrontDistributionId";
             query w "WebsiteURL" ]
           [ Npm_install "frontend"; Npm_run_build "frontend";
             Deploy.sync_command (Deploy.BUCKET_NAME (outputs w)) (REGION w);
             Deploy.cp_command (Deploy.BUCKET_NAME (outputs w)) (REGION w);
             invalidate w;
             Cloudfront_wait_invalidation_completed
               (Deploy.DISTRIBUTION_ID (outputs w)) (output w (invalidate w)) ]
           (outputs w) tt); [apply step3_runs | intros _].
  apply (runs_as_bind w _ _ [] _ tt tt); [apply step4_runs | intros _].
  apply (runs_as_bind w _ _ [Npm_install "frontend"] _ tt tt);
    [apply step5_runs | intros _].
  apply (runs_as_bind w _ _ [Npm_run_build "frontend"] _ tt tt);
    [apply step6_runs | intros _].
  apply (runs_as_bind w _ _
           [ Deploy.sync_command (Deploy.BUCKET_NAME (outputs w)) (REGION w);
             Deploy.cp_command (Deploy.BUCKET_NAME (outputs w)) (REGION w) ]
           _ tt tt); [apply step7_runs | intros _].
  apply (runs_as_bind w _ _
           [ invalidate w;
             Cloudfront_wait_invalidation_completed
               (Deploy.DISTRIBUTION_ID (outputs w)) (output w (invalidate w)) ]
           [] tt tt); [apply step8_runs | intros _].
  apply epilogue_runs.
Qed.

(** Step 2: the probe, whose status does not end the script, then the
    branch under [set -e]. *)
Lemma step2_behaves :
  behaves w (Deploy.step2 (REGION w))
    ([describe w] ++ (until_failure w (branch_commands w)).1)%list
    (until_failure w (branch_commands w)).2 tt.
Proof.
  unfold Deploy.step2.
  do 5 (apply (behaves_bind w _ _ [] _ _ tt tt); [apply behaves_echo|]).
  apply (behaves_bind w _ _ [describe w] _ _ (respond w (describe w)) tt);
    [apply behaves_try|].
  cbv beta. unfold branch_commands.
  change ((respond w (describe w)).1) with (status w (describe w)).
  destruct (status w (describe w) =? 0)%Z.
  - eapply (runs_as_bind w _ _ (update_commands w) [] _ tt);
      [apply update_stack_runs|].
    intros Hok. cbv beta.
    assert (Hs : status w (Cfn_wait_stack_update_complete Deploy.STACK_NAME
                             (REGION w)) = 0%Z).
    { apply (until_failure_ok w (update_commands w)); [exact Hok|].
      unfold update_commands. cbn [In]. tauto. }
    rewrite Hs. apply runs_as_quiet, behaves_echo.
  - eapply (runs_as_bind w _ _ (create_commands w) [] _ tt);
      [apply create_stack_runs|].
    intros Hok. cbv beta.
    assert (Hs : status w (Cfn_wait_stack_create_complete Deploy.STACK_NAME
                             (REGION w)) = 0%Z).
    { apply (until_failure_ok w (create_commands w)); [exact Hok|].
      unfold create_commands. cbn [In]. tauto. }
    rewrite Hs. apply runs_as_quiet, behaves_echo.
Qed.

Lemma main_behaves :
  behaves w Deploy.main (expected_deployment w).1 (expected_deployment w).2 tt.
Proof.
  unfold Deploy.main, Deploy.banner.
  apply (behaves_bind w _ _ [] _ _ tt tt).
  { do 3 (apply (behaves_bind w _ _ [] [] _ tt tt); [apply behaves_echo|]).
    apply behaves_echo. }
  apply (behaves_bind w _ _ [] _ _ (AWS_REGION w) tt); [apply behaves_getenv|].
  cbv zeta. fold (REGION w).
  pose proof step1_runs as H1. unfold runs_as in H1.
  cbn [until_failure fst snd] in H1.
  unfold expected_deployment.
  destruct (status w (validate w) =? 0)%Z eqn:Ev; cbn [fst snd] in *.
  - apply (behaves_bind w _ _ [validate w] _ _ tt tt); [exact H1|].
    pose proof (runs_from_bind w (Deploy.step2 (REGION w))
                  (fun _ =>
                     o ← Deploy.step3 (REGION w);
                     Deploy.step4 o (REGION w);; Deploy.step5;; Deploy.step6;;
                     Deploy.step7 o (REGION w);; Deploy.step8 o;;
                     Deploy.epilogue o)
                  [describe w] (branch_commands w) (delivery_commands w) tt tt
                  step2_behaves (fun _ => delivery_runs)) as H.
    exact H.
  - apply (behaves_bind_exit w _ _ _ _ tt); [|exact H1].
    apply Z.eqb_neq. exact Ev.
Qed.

End In_world.

End DeploySteps.

(** ** What the deployment script echoes *)

Module DeployEchoes.
Import Shell Runs Expect ScriptLogic EmitRules.
Local Open Scope string_scope.

Section In_world.

Variable w : World.

Lemma banner_plain : 
  holds w Deploy.banner plain (fun _ => True) nonzero.
Proof. unfold Deploy.banner, echo. walk. Qed.

Lemma step1_plain (R : string) : 
  holds w (Deploy.step1 R) plain (fun _ => True) nonzero.
Proof. unfold Deploy.step1, echo. walk. Qed.

Lemma update_stack_plain (R : string) :
  holds w (Deploy.update_stack R) plain (fun z => z = 0%Z) nonzero.
Proof. unfold Deploy.update_stack, echo. walk. Qed.

Lemma create_stack_plain (R : string) :
  holds w (Deploy.create_stack R) plain (fun z => z = 0%Z) nonzero.
Proof. unfold Deploy.create_stack, echo. walk. Qed.

Lemma step2_plain (R : string) : 
  holds w (Deploy.step2 R) plain (fun _ => True) nonzero.
Proof.
  unfold Deploy.step2, echo. walk.
  apply holds_bind with (Q := fun z => z = 0%Z).
  - destruct (_ =? 0)%Z; [apply update_stack_plain | apply create_stack_plain].
  - intros z ->. cbn [Z.eqb]. walk.
Qed.

Lemma step3_plain (R : string) :
  holds w (Deploy.step3 R) plain (fun _ => True) nonzero.
Proof. unfold Deploy.step3, echo. walk. Qed.

Lemma step4_plain (o : Deploy.Outputs) (R : string) :
  
  holds w (Deploy.step4 o R) plain (fun _ => True) nonzero.
Proof. unfold Deploy.step4, echo. walk. Qed.

Lemma step5_plain : 
  holds w Deploy.step5 plain (fun _ => True) nonzero.
Proof. unfold Deploy.step5, echo. walk. Qed.

Lemma step6_plain : 
  holds w Deploy.step6 plain (fun _ => True) nonzero.
Proof. unfold Deploy.step6, echo. walk. Qed.

Lemma step7_plain (o : Deploy.Outputs) (R : string) :
  
  holds w (Deploy.step7 o R) plain (fun _ => True) nonzero.
Proof. unfold Deploy.step7, echo. walk. Qed.

Lemma step8_plain (o : Deploy.Outputs) : 
  holds w (Deploy.step8 o) plain (fun _ => True) nonzero.
Proof. unfold Deploy.step8, echo. walk. Qed.

(** The closing lines: all echoed, none in red, the announcement among
    them. *)
Lemma epilogue_red_free (o : Deploy.Outputs) :
  holds w (Deploy.epilogue o) red_free (fun _ => True) nonzero.
Proof. unfold Deploy.epilogue, echo. walk. Qed.

Lemma epilogue_announces (o : Deploy.Outputs) :
  announces w (Deploy.epilogue o) COMPLETE.
Proof.
  intros tr _.
  unfold Deploy.epilogue, echo, emit, mbind, script_bind. cbn [fst snd].
  rewrite <- !app_assoc. apply in_or_app. right. cbn. tauto.
Qed.

Lemma plain_red_free (e : Event) : plain e -> red_free e.
Proof. intros [H _]. exact H. Qed.

Lemma plain_not_line (e : Event) : plain e -> not_line COMPLETE e.
Proof. intros [_ H]. exact H. Qed.

Lemma main_red_free :
  holds w Deploy.main red_free (fun _ => True) nonzero.
Proof.
  unfold Deploy.main.
  apply holds_bind with (Q := fun _ => True);
    [apply (holds_events w _ plain), plain_red_free; apply banner_plain|].
  intros _ _.
  apply holds_bind with (Q := fun _ => True); [apply holds_getenv|].
  intros v _. cbv zeta.
  apply holds_bind with (Q := fun _ => True);
    [apply (holds_events w _ plain), plain_red_free; apply step1_plain|].
  intros _ _.
  apply holds_bind with (Q := fun _ => True);
    [apply (holds_events w _ plain), plain_red_free; apply step2_plain|].
  intros _ _.
  apply holds_bind with (Q := fun _ => True);
    [apply (holds_events w _ plain), plain_red_free; apply step3_plain|].
  intros o _.
  apply holds_bind with (Q := fun _ => True);
    [apply (holds_events w _ plain), plain_red_free; apply step4_plain|].
  intros _ _.
  apply holds_bind with (Q := fun _ => True);
    [apply (holds_events w _ plain), plain_red_free; apply step5_plain|].
  intros _ _.
  apply holds_bind with (Q := fun _ => True);
    [apply (holds_events w _ plain), plain_red_free; apply step6_plain|].
  intros _ _.
  apply holds_bind with (Q := fun _ => True);
    [apply (holds_events w _ plain), plain_red_free; apply step7_plain|].
  intros _ _.
  apply holds_bind with (Q := fun _ => True);
    [apply (holds_events w _ plain), plain_red_free; apply step8_plain|].
  intros _ _. apply epilogue_red_free.
Qed.

Lemma main_announces : announces w Deploy.main COMPLETE.
Proof.
  unfold Deploy.main.
  apply announces_bind with (Q := fun _ => True);
    [apply (holds_events w _ plain), plain_not_line; apply banner_plain|].
  intros _ _.
  apply announces_bind with (Q := fun _ => True); [apply holds_getenv|].
  intros v _. cbv zeta.
  apply announces_bind with (Q := fun _ => True);
    [apply (holds_events w _ plain), plain_not_line; apply step1_plain|].
  intros _ _.
  apply announces_bind with (Q := fun _ => True);
    [apply (holds_events w _ plain), plain_not_line; apply step2_plain|].
  intros _ _.
  apply announces_bind with (Q := fun _ => True);
    [apply (holds_events w _ plain), plain_not_line; apply step3_plain|].
  intros o _.
  apply announces_bind with (Q := fun _ => True);
    [apply (holds_events w _ plain), plain_not_line; apply step4_plain|].
  intros _ _.
  apply announces_bind with (Q := fun _ => True);
    [apply (holds_events w _ plain), plain_not_line; apply step5_plain|].
  intros _ _.
  apply announces_bind with (Q := fun _ => True);
    [apply (holds_events w _ plain), plain_not_line; apply step6_plain|].
  intros _ _.
  apply announces_bind with (Q := fun _ => True);
    [apply (holds_events w _ plain), plain_not_line; apply step7_plain|].
  intros _ _.
  apply announces_bind with (Q := fun _ => True);
    [apply (holds_events w _ plain), plain_not_line; apply step8_plain|].
  intros _ _. apply epilogue_announces.
Qed.

End In_world.

End DeployEchoes.

(** ** What the deployment script does with a stack that exists *)

Module LifecycleFacts.
Import Shell Runs Expect ScriptLogic ScriptRules EmitRules.
Local Open Scope string_scope.

Section In_world.

Variable w : World.
















End In_world.






End LifecycleFacts.

(** ** More on the two scripts *)

Module ScriptFacts.
Import Shell Runs Expect ScriptLogic ScriptRules.
Local Open Scope string_scope.

(** X1. Under [set -e] the deployment stops at the first failing command:
    in every world, the calls of a run are the template validation, then,
    if it succeeded, the existence probe (whose status only picks the
    branch), then the commands of the branch and of steps 3 to 8 up to and
    including the first one that exits with a non-zero status; the exit
    status is that status, or 0 when none failed. *)
Theorem deployment_stops_at_first_failure (w : World) :
  (calls (exec Deploy.main w).2, (exec Deploy.main w).1)
  = expected_deployment w.
Proof.
  destruct (DeploySteps.main_behaves w []) as [Hc Hr].
  unfold exec. destruct (Deploy.main w []) as [[[] | c] tr];
    cbn [fst snd calls app] in *; rewrite Hc;
    destruct ((expected_deployment w).2 =? 0)%Z eqn:E.
  - apply Z.eqb_eq in E. rewrite <- E.
    destruct (expected_deployment w). reflexivity.
  - discriminate Hr.
  - discriminate Hr.
  - injection Hr as ->. destruct (expected_deployment w). reflexivity.
Qed.

(** X2. The line that announces a finished deployment is echoed exactly
    by the runs that end with status 0. *)
Theorem completion_is_announced_iff_success (w : World) :
  In (Echo COMPLETE) (exec Deploy.main w).2 <-> (exec Deploy.main w).1 = 0%Z.
Proof.
  pose proof (DeployEchoes.main_announces w [] (fun H => H)) as H.
  unfold exec. destruct (Deploy.main w []) as [[[] | c] tr];
    cbn [fst snd] in *.
  - split; [reflexivity | intros _; exact H].
  - destruct H as [Hno Hc]. split; [intros Hin | intros Hz]; contradiction.
Qed.

(** X3. The script never echoes a line in red: under [set -e] the two
    failure messages, for the template validation and for the stack
    deployment, are never printed, whatever fails. *)
Theorem failure_lines_are_never_echoed (w : World) :
  (forall l, In (Echo l) (exec Deploy.main w).2 ->
             String.prefix RED l = false) /\
  ~ In (Echo (RED ++ "✗ Template validation failed" ++ NC))
       (exec Deploy.main w).2 /\
  ~ In (Echo (RED ++ "✗ Stack deployment failed" ++ NC))
       (exec Deploy.main w).2.
Proof.
  assert (H : forall l, In (Echo l) (exec Deploy.main w).2 ->
                        String.prefix RED l = false).
  { destruct (DeployEchoes.main_red_free w []) as (ext & He & HE & _).
    intros l Hl.
    assert (Htr : (exec Deploy.main w).2 = ext).
    { unfold exec. destruct (Deploy.main w []) as [[[] | c] tr]; exact He. }
    rewrite Htr in Hl. rewrite List.Forall_forall in HE.
    exact (HE _ Hl). }
  split; [exact H|].
  split; intros Hin; apply H in Hin; discriminate Hin.
Qed.

Lemma In_echo (l : string) (tr : list Event) :
  In (Echo l) tr <-> existsb (is_line l) tr = true.
Proof.
  rewrite existsb_exists. split.
  - intros H. exists (Echo l). split; [exact H | apply String.eqb_refl].
  - intros (e & He & Hl). destruct e; try discriminate Hl.
    apply String.eqb_eq in Hl. subst. exact He.
Qed.

(** X4. When standard input ends before a line has been read, the
    deletion script leaves with status 1 under [set -e]: it has run no
    command, and it has not reported a cancelled deletion either. *)
Theorem deletion_without_reply (w : World) (partial : string) :
  input w = Eof partial ->
  (exec Destroy.main w).1 = 1%Z /\
  calls (exec Destroy.main w).2 = [] /\
  ~ In (Echo "Deletion cancelled.") (exec Destroy.main w).2.
Proof.
  intros Hin. DeployFacts.unfold_script. rewrite Hin. cbn [fst snd].
  split; [reflexivity|]. split; [reflexivity|].
  rewrite In_echo. vm_compute. discriminate.
Qed.

Lemma deletion_without_reply_witness :
  (exec Destroy.main healthy_world).1 = 1%Z /\
  calls (exec Destroy.main healthy_world).2 = [] /\
  ~ In (Echo "Deletion cancelled.") (exec Destroy.main healthy_world).2.
Proof.
  apply (deletion_without_reply healthy_world ""). reflexivity.
Defined.

(** X5. After a yes, when the bucket query printed a name, the script
    reports the bucket as emptied whatever the status of the removal, a
    failed removal included, and goes on to the stack delete. *)
Theorem bucket_reported_emptied_whatever_happens (w : World)
    (reply : string) :
  input w = Line reply -> says_yes reply ->
  output w (bucket_query w) <> "" ->
  In (Echo EMPTIED) (exec Destroy.main w).2 /\
  exists rest,
    calls (exec Destroy.main w).2
    = bucket_query w :: empty_the_bucket w :: delete w :: rest.
Proof.
  intros Hin Hyes Hname. apply DestroyFacts.confirmed_says_yes in Hyes.
  apply String.eqb_neq in Hname. rewrite In_echo.
  unfold bucket_query, empty_the_bucket, delete, output, REGION in *.
  DeployFacts.unfold_script. rewrite Hin, Hyes. cbn [negb].
  set (q := respond w (Cfn_describe_output _ _ _)) in *.
  assert (E : forall s : string, s ++ "" = s).
  { induction s as [|a s IH]; [reflexivity|].
    change (String a (s ++ "") = String a s). rewrite IH. reflexivity. }
  replace (if (q.1 =? 0)%Z then q.2 else q.2 ++ "") with q.2
    by (destruct (q.1 =? 0)%Z; [reflexivity | symmetry; apply E]).
  rewrite Hname. DeployFacts.decide_tests;
    (split; [vm_compute; reflexivity | eexists; reflexivity]).
Qed.

Lemma bucket_reported_emptied_whatever_happens_witness :
  In (Echo EMPTIED)
     (exec Destroy.main (answering "yes" removal_fails)).2
  /\ exists rest,
    calls (exec Destroy.main
             (answering "yes" removal_fails)).2
    = bucket_query (answering "yes" removal_fails)
      :: empty_the_bucket (answering "yes" removal_fails)
      :: delete (answering "yes" removal_fails) :: rest.
Proof.
  apply (bucket_reported_emptied_whatever_happens
           (answering "yes" removal_fails) "yes").
  - reflexivity.
  - apply DestroyFacts.confirmed_says_yes. reflexivity.
  - discriminate.
Defined.

(** X6. When a line was read, the script reports the stack as deleted
    exactly when the line was a yes and both the stack delete and the
    wait for the deletion succeeded. *)
Theorem deleted_is_reported_iff_deleted (w : World) (reply : string) :
  input w = Line reply ->
  In (Echo DELETED) (exec Destroy.main w).2 <->
  says_yes reply /\ status w (delete w) = 0%Z /\
  status w (wait_deleted w) = 0%Z.
Proof.
  intros Hin. rewrite <- DestroyFacts.confirmed_says_yes, In_echo.
  rewrite <- !Z.eqb_eq.
  unfold delete, wait_deleted, status, REGION.
  DeployFacts.unfold_script. rewrite Hin.
  destruct (Destroy.confirmed reply); cbn [negb].
  - set (q := respond w (Cfn_describe_output _ _ _)).
    assert (E : forall s : string, s ++ "" = s).
    { induction s as [|a s IH]; [reflexivity|].
      change (String a (s ++ "") = String a s). rewrite IH. reflexivity. }
    replace (if (q.1 =? 0)%Z then q.2 else q.2 ++ "") with q.2
      by (destruct (q.1 =? 0)%Z; [reflexivity | symmetry; apply E]).
    destruct (String.eqb q.2 ""); DeployFacts.decide_tests;
      (split; [intros H | intros (_ & Hd & Hw)]);
      first [ discriminate Hd | discriminate Hw
            | vm_compute in H; discriminate H
            | auto
            | vm_compute; reflexivity ].
  - cbn [fst snd]. split; [intros H | intros (H & _)]; [|discriminate H].
    vm_compute in H. discriminate H.
Qed.

Lemma deleted_is_reported_iff_deleted_witness :
  In (Echo DELETED) (exec Destroy.main (answering "yes" healthy)).2 <->
  says_yes "yes" /\ status (answering "yes" healthy)
                      (delete (answering "yes" healthy)) = 0%Z /\
  status (answering "yes" healthy)
    (wait_deleted (answering "yes" healthy)) = 0%Z.
Proof.
  apply (deleted_is_reported_iff_deleted (answering "yes" healthy) "yes").
  reflexivity.
Defined.

End ScriptFacts.

(** ** More on publishing the build *)

Module PublishMore.
Import Shell Publish Expect PublishFacts.
Local Open Scope string_scope.

(** Step 7, whether or not the build holds [index.html]. *)
Lemma publish_eq (local remote : list string) (bucket REGION : string)
    (stale : string -> bool) :
  publish local bucket remote stale REGION
  = (sync_ops local remote stale Deploy.LONG_CACHE Deploy.EXCLUDES
     ++ cp_ops local "index.html" "index.html" Deploy.NO_CACHE)%list.
Proof.
  unfold publish, Deploy.sync_command, Deploy.cp_command.
  cbn [transfer]. rewrite !String.eqb_refl. cbn [andb].
  rewrite (strip_prefix_app Deploy.BUILD_DIR "index.html").
  rewrite (strip_prefix_app (Deploy.bucket_url bucket) "index.html").
  reflexivity.
Qed.

Lemma mem_false (k : string) (l : list string) : mem k l = false <-> ~ In k l.
Proof.
  rewrite <- mem_In. destruct (mem k l); split; congruence.
Qed.

(** X7. Step 7 makes no request about [asset-manifest.json] or
    [service-worker.js]: whatever the build directory and the bucket
    hold, these two files are neither uploaded nor deleted. *)
Theorem manifest_and_service_worker_are_left_alone
    (local remote : list string) (bucket REGION : string)
    (stale : string -> bool) (op : S3Op) :
  In op (publish local bucket remote stale REGION) ->
  key_of op <> "asset-manifest.json" /\ key_of op <> "service-worker.js".
Proof.
  rewrite publish_eq. unfold sync_ops, cp_ops. intros H.
  apply in_app_or in H as [H | H]; [apply in_app_or in H as [H | H]|].
  - apply in_map_iff in H as (k & <- & Hk).
    apply List.filter_In in Hk as [_ Hk].
    apply andb_true_iff in Hk as [Hk _]. apply negb_true_iff, mem_false in Hk.
    cbn [key_of]. split; intros ->; apply Hk; cbn; tauto.
  - apply in_map_iff in H as (k & <- & Hk).
    apply List.filter_In in Hk as [_ Hk].
    apply andb_true_iff in Hk as [Hk _]. apply negb_true_iff, mem_false in Hk.
    cbn [key_of]. split; intros ->; apply Hk; cbn; tauto.
  - destruct (mem "index.html" local); [|destruct H].
    destruct H as [<- | []]. cbn [key_of]. split; discriminate.
Qed.

Lemma manifest_and_service_worker_are_left_alone_witness :
  key_of (PutObject "index.html" Deploy.NO_CACHE) <> "asset-manifest.json" /\
  key_of (PutObject "index.html" Deploy.NO_CACHE) <> "service-worker.js".
Proof.
  apply (manifest_and_service_worker_are_left_alone
           ["index.html"; "service-worker.js"; "asset-manifest.json"]
           ["service-worker.js"] "cognito-login-website" "us-east-1"
           (fun _ => true)).
  vm_compute. tauto.
Defined.

(** X8. With [--delete], step 7 deletes exactly the objects of the bucket
    that are not in the build directory, the three filtered names
    excepted: an old [index.html], [asset-manifest.json] or
    [service-worker.js] stays in the bucket. *)
Theorem orphans_are_deleted (local remote : list string)
    (bucket REGION : string) (stale : string -> bool) (k : string) :
  In (DeleteObject k) (publish local bucket remote stale REGION) <->
  In k remote /\ ~ In k local /\ ~ In k Deploy.EXCLUDES.
Proof.
  rewrite publish_eq. unfold sync_ops, cp_ops. split.
  - intros H.
    apply in_app_or in H as [H | H]; [apply in_app_or in H as [H | H]|].
    + apply in_map_iff in H as (x & Hx & _). discriminate Hx.
    + apply in_map_iff in H as (x & [= ->] & Hk).
      apply List.filter_In in Hk as [Hr Hk].
      apply andb_true_iff in Hk as [He Hl].
      apply negb_true_iff, mem_false in He.
      apply negb_true_iff, mem_false in Hl. tauto.
    + destruct (mem "index.html" local); [|destruct H].
      destruct H as [H | []]. discriminate H.
  - intros (Hr & Hl & He). apply in_or_app. left. apply in_or_app. right.
    apply in_map, List.filter_In. split; [exact Hr|].
    apply mem_false in Hl, He. rewrite Hl, He. reflexivity.
Qed.

(** X9. When the sync finds nothing in need of sending, step 7 still
    uploads [index.html]: its requests are the deletions of the orphans
    followed by that one upload under the no-cache header. *)
Theorem unchanged_build_uploads_index_only (local remote : list string)
    (bucket REGION : string) (stale : string -> bool) :
  (forall k, stale k = false) -> In "index.html" local ->
  publish local bucket remote stale REGION
  = (map DeleteObject
       (List.filter (fun k => negb (mem k Deploy.EXCLUDES)
                              && negb (mem k local)) remote)
     ++ [PutObject "index.html" Deploy.NO_CACHE])%list.
Proof.
  intros Hst Hin. rewrite publish_eq. unfold sync_ops, cp_ops.
  apply mem_In in Hin. rewrite Hin. f_equal.
  assert (E : List.filter (fun k => negb (mem k Deploy.EXCLUDES) && stale k)
                local = []).
  { induction local as [|x l IH]; [reflexivity|].
    cbn [List.filter]. rewrite Hst, andb_false_r.
    clear Hin IH. induction l as [|y l IH]; [reflexivity|].
    cbn [List.filter]. rewrite Hst, andb_false_r. exact IH. }
  rewrite E. reflexivity.
Qed.

Lemma unchanged_build_uploads_index_only_witness :
  publish ["index.html"; "main.js"] "cognito-login-website"
    ["index.html"; "main.js"; "old.js"] (fun _ => false) "us-east-1"
  = (map DeleteObject
       (List.filter (fun k => negb (mem k Deploy.EXCLUDES)
                              && negb (mem k ["index.html"; "main.js"]))
          ["index.html"; "main.js"; "old.js"])
     ++ [PutObject "index.html" Deploy.NO_CACHE])%list.
Proof.
  apply (unchanged_build_uploads_index_only ["index.html"; "main.js"]
           ["index.html"; "main.js"; "old.js"] "cognito-login-website"
           "us-east-1" (fun _ => false)).
  - reflexivity.
  - simpl. tauto.
Defined.

End PublishMore.

(** ** More on the sign-up page *)

Module SignUpMore.
Import Re Js SignUp SignUpFacts App.

(** An accepted form is left as it was. *)
Lemma validateForm_accepts_state (st : State) :
  (validateForm st).1 = true -> (validateForm st).2 = st.
Proof.
  unfold validateForm.
  repeat match goal with
  | |- context [if negb ?c then _ else _] =>
      destruct c; cbn [negb fst snd]; try discriminate
  | |- context [if ?c then _ else _] =>
      destruct c; cbn [negb fst snd]; try discriminate
  end.
  reflexivity.
Qed.

Lemma or_else_nonempty (a b : jsstring) : b <> [] -> or_else a b <> [].
Proof. unfold or_else. destruct a; cbn [truthy]; [auto | discriminate]. Qed.

Lemma on_rejected_error (err : Err) (st : State) :
  error (on_rejected err st) <> [].
Proof.
  unfold on_rejected.
  repeat match goal with
  | |- context [if jseq ?a ?b then _ else _] => destruct (jseq a b)
  end; cbn [error setError];
  first [apply lit_nonempty | apply or_else_nonempty, lit_nonempty].
Qed.

(** What the handler does with an acceptable form. *)
Lemma handleSubmit_accepted (signUp : SignUpInput -> Settled) (st : State) :
  acceptable (formData st) ->
  handleSubmit signUp st
  = match signUp (request (formData st)) with
    | Resolved =>
        (setLoading false (setLoading true (setError [] st)),
         [PreventDefault; SignUpCall (request (formData st));
          Navigate (lit "/verify-email") (email (formData st))])
    | Rejected err =>
        (setLoading false
           (on_rejected err (setLoading true (setError [] st))),
         [PreventDefault; SignUpCall (request (formData st));
          ConsoleError (lit "Sign up error:") err])
    end.
Proof.
  intros Hacc. apply checks_acceptable in Hacc.
  pose proof (validateForm_checks (setError [] st)) as Hc.
  pose proof (validateForm_accepts_state (setError [] st)) as Hs.
  change (formData (setError [] st)) with (formData st) in Hc.
  unfold handleSubmit, request.
  destruct (validateForm (setError [] st)) as [ok st1]. cbn [fst snd] in *.
  rewrite Hacc in Hc. subst ok. rewrite (Hs eq_refl). cbn [negb].
  reflexivity.
Qed.

(** X10. The sign-up handler calls [signUp] exactly for the acceptable
    forms, once, after [preventDefault]; the request carries the e-mail as
    user name and as attribute and the two names as typed, untrimmed; a
    fulfilled call is followed by the navigation to [/verify-email] with
    the e-mail, and the loading flag is off at the end. *)
Theorem signUp_called_for_acceptable_forms (signUp : SignUpInput -> Settled)
    (st : State) :
  (existsb is_signUp (handleSubmit signUp st).2 = true
   <-> acceptable (formData st)) /\
  (acceptable (formData st) ->
   (handleSubmit signUp st).2
   = PreventDefault :: SignUpCall (request (formData st))
     :: match signUp (request (formData st)) with
        | Resolved => [Navigate (lit "/verify-email") (email (formData st))]
        | Rejected err => [ConsoleError (lit "Sign up error:") err]
        end /\
   loading (handleSubmit signUp st).1 = false).
Proof.
  rewrite <- checks_acceptable.
  pose proof (validateForm_checks (setError [] st)) as Hc.
  pose proof (validateForm_accepts_state (setError [] st)) as Hs.
  change (formData (setError [] st)) with (formData st) in Hc.
  unfold handleSubmit, request.
  destruct (validateForm (setError [] st)) as [ok st1]. cbn [fst snd] in *.
  rewrite <- Hc. destruct ok; cbn [negb].
  - rewrite (Hs eq_refl).
    change (formData (setLoading true (setError [] st))) with (formData st).
    destruct (signUp _); cbn [snd fst existsb is_signUp orb loading setLoading];
      (split; [split; reflexivity | intros _; split; reflexivity]).
  - cbn [snd existsb is_signUp orb]. split; [split|]; discriminate.
Qed.

Lemma signUp_called_for_acceptable_forms_witness :
  (handleSubmit (fun _ => Resolved) good_form).2
  = PreventDefault :: SignUpCall (request (formData good_form))
    :: match (fun _ : SignUpInput => Resolved) (request (formData good_form)) with
       | Resolved => [Navigate (lit "/verify-email")
                        (email (formData good_form))]
       | Rejected err => [ConsoleError (lit "Sign up error:") err]
       end /\
  loading (handleSubmit (fun _ => Resolved) good_form).1 = false.
Proof.
  apply (signUp_called_for_acceptable_forms (fun _ => Resolved) good_form).
  apply checks_acceptable. reflexivity.
Defined.

(** X11. When [signUp] rejects, the page shows a message and stays
    where it is: the error is never empty and no navigation takes place;
    for [UsernameExistsException] the message is the page's own text,
    whatever the service said, and for every other error it is the
    service's message when there is one. *)
Theorem rejected_signUp_shows_a_message (signUp : SignUpInput -> Settled)
    (st : State) (err : Err) :
  acceptable (formData st) ->
  signUp (request (formData st)) = Rejected err ->
  error (handleSubmit signUp st).1 <> [] /\
  (forall e, In e (handleSubmit signUp st).2 -> signup_target e = None) /\
  (name err = lit "UsernameExistsException" ->
   error (handleSubmit signUp st).1
   = lit "An account with this email already exists. Please log in or use a different email.") /\
  (name err <> lit "UsernameExistsException" -> message err <> [] ->
   error (handleSubmit signUp st).1 = message err).
Proof.
  intros Hacc Hrej. apply checks_acceptable in Hacc.
  pose proof (validateForm_checks (setError [] st)) as Hc.
  pose proof (validateForm_accepts_state (setError [] st)) as Hs.
  change (formData (setError [] st)) with (formData st) in Hc.
  unfold handleSubmit.
  destruct (validateForm (setError [] st)) as [ok st1]. cbn [fst snd] in *.
  rewrite Hacc in Hc. subst ok. rewrite (Hs eq_refl). cbn [negb].
  change (formData (setLoading true (setError [] st))) with (formData st).
  fold (request (formData st)). rewrite Hrej. cbn [fst snd].
  change (error (setLoading false ?x)) with (error x).
  split; [apply on_rejected_error|]. split; [|split].
  - intros e [<- | [<- | [<- | []]]]; reflexivity.
  - intros Hn. unfold on_rejected. rewrite Hn.
    unfold jseq. rewrite bool_decide_eq_true_2 by reflexivity. reflexivity.
  - intros Hn Hm. unfold on_rejected, jseq.
    rewrite (bool_decide_eq_false_2 _ Hn).
    assert (Ho : forall d, or_else (message err) d = message err).
    { intros d. unfold or_else. destruct (message err); [contradiction|].
      reflexivity. }
    repeat match goal with
    | |- context [if bool_decide ?P then _ else _] => destruct (bool_decide P)
    end; cbn [error setError]; apply Ho.
Qed.

Lemma rejected_signUp_shows_a_message_witness :
  error (handleSubmit
           (fun _ => Rejected {| name := lit "UsernameExistsException";
                                 message := lit "User already exists" |})
           good_form).1 <> [].
Proof.
  apply (rejected_signUp_shows_a_message
           (fun _ => Rejected {| name := lit "UsernameExistsException";
                                 message := lit "User already exists" |})
           good_form
           {| name := lit "UsernameExistsException";
              message := lit "User already exists" |}).
  - apply checks_acceptable. reflexivity.
  - reflexivity.
Defined.

Lemma not_space_at_spec (c : N) :
  not_space_at c = true -> is_space c = false /\ c <> chr "@".
Proof.
  unfold not_space_at. intros H. apply negb_true_iff, orb_false_iff in H.
  destruct H as [Hs Ha]. split; [exact Hs|].
  intros ->. unfold is_char in Ha. rewrite N.eqb_refl in Ha. discriminate.
Qed.

Lemma count_at_free (l : jsstring) :
  forallb not_space_at l = true -> count_occ N.eq_dec l (chr "@") = 0.
Proof.
  intros H. apply count_occ_not_In. intros Hin.
  rewrite forallb_forall in H. apply H, not_space_at_spec in Hin.
  destruct Hin as [_ Hin]. contradiction.
Qed.

(** X12. An e-mail address that passes the form's check has no white
    space anywhere, exactly one [@], and at least five characters. *)
Theorem accepted_email_is_well_formed (st : State) :
  (validateForm st).1 = true ->
  (forall c, In c (email (formData st)) -> is_space c = false) /\
  count_occ N.eq_dec (email (formData st)) (chr "@") = 1 /\
  5 <= length (email (formData st)).
Proof.
  intros H. rewrite validateForm_checks in H.
  apply checks_acceptable in H.
  destruct H as [_ _ _ Hshape _ _ _ _ _ _].
  destruct Hshape as (a & b & c & -> & Ha & Hb & Hc & Fa & Fb & Fc).
  split; [|split].
  - intros x Hx.
    assert (Hall : forall l, forallb not_space_at l = true ->
                             In x l -> is_space x = false).
    { intros l Hl Hin. rewrite forallb_forall in Hl.
      apply (not_space_at_spec x (Hl x Hin)). }
    apply in_app_or in Hx as [Hx | [<- | Hx]]; [eauto | reflexivity |].
    apply in_app_or in Hx as [Hx | [<- | Hx]]; [eauto | reflexivity | eauto].
  - rewrite count_occ_app, (count_at_free a Fa).
    rewrite count_occ_cons_eq by reflexivity.
    rewrite count_occ_app, (count_at_free b Fb).
    rewrite count_occ_cons_neq by discriminate.
    rewrite (count_at_free c Fc). reflexivity.
  - rewrite length_app. cbn [length]. rewrite length_app. cbn [length].
    destruct a; [contradiction|]. destruct b; [contradiction|].
    destruct c; [contradiction|]. cbn [length]. lia.
Qed.

Lemma accepted_email_is_well_formed_witness :
  (forall c, In c (email (formData good_form)) -> is_space c = false) /\
  count_occ N.eq_dec (email (formData good_form)) (chr "@") = 1 /\
  5 <= length (email (formData good_form)).
Proof.
  apply (accepted_email_is_well_formed good_form). reflexivity.
Defined.

End SignUpMore.

(** ** The forgot-password and reset-password pages *)

Module RecoveryFacts.
Import Re Js Pages SignUpFacts.

Lemma email_shape_trim (e : jsstring) :
  SignUp.email_shape e -> trim e <> [].
Proof.
  intros (a & b & c & -> & Ha & _ & _ & Fa & _ & _).
  apply trim_nonempty. destruct a as [|x a]; [contradiction|].
  exists x. split; [left; reflexivity|].
  cbn [forallb] in Fa. apply andb_true_iff in Fa as [Fx _].
  unfold SignUp.not_space_at in Fx.
  apply negb_true_iff, orb_false_iff in Fx. tauto.
Qed.

Lemma email_shape_nonempty (e : jsstring) : SignUp.email_shape e -> e <> [].
Proof.
  intros (a & b & c & -> & Ha & _). destruct a; [contradiction | discriminate].
Qed.

Lemma state_email_some (e : jsstring) : state_email (Some e) = e.
Proof. destruct e; reflexivity. Qed.


Lemma validatePassword_formData (st st' : ResetPassword.State) :
  ResetPassword.formData st = ResetPassword.formData st' ->
  (ResetPassword.validatePassword st).1
  = (ResetPassword.validatePassword st').1.
Proof.
  intros H. unfold ResetPassword.validatePassword. rewrite H.
  repeat match goal with
  | |- context [if negb ?c then _ else _] =>
      destruct c; cbn [negb fst]; try reflexivity
  | |- context [if ?c then _ else _] =>
      destruct c; cbn [negb fst]; try reflexivity
  end.
Qed.

Lemma validatePassword_accepts_state (st : ResetPassword.State) :
  (ResetPassword.validatePassword st).1 = true ->
  (ResetPassword.validatePassword st).2 = st.
Proof.
  unfold ResetPassword.validatePassword.
  repeat match goal with
  | |- context [if negb ?c then _ else _] =>
      destruct c; cbn [negb fst snd]; try discriminate
  | |- context [if ?c then _ else _] =>
      destruct c; cbn [negb fst snd]; try discriminate
  end.
  reflexivity.
Qed.

Lemma validatePassword_refusal (st : ResetPassword.State) :
  (ResetPassword.validatePassword st).1 = false ->
  ResetPassword.error (ResetPassword.validatePassword st).2 <> [] /\
  ResetPassword.success (ResetPassword.validatePassword st).2
  = ResetPassword.success st.
Proof.
  unfold ResetPassword.validatePassword.
  repeat match goal with
  | |- context [if negb ?c then _ else _] =>
      destruct c;
      cbn [negb fst snd ResetPassword.setError ResetPassword.error
           ResetPassword.success];
      try (intros _; split; [apply lit_nonempty | reflexivity])
  | |- context [if ?c then _ else _] =>
      destruct c;
      cbn [negb fst snd ResetPassword.setError ResetPassword.error
           ResetPassword.success];
      try (intros _; split; [apply lit_nonempty | reflexivity])
  end.
  discriminate.
Qed.

(** X14. The reset page enforces the password policy of the sign-up page:
    [validatePassword] accepts exactly the passwords of at least 8
    characters with a lowercase letter, an uppercase letter, a digit and
    one of [!@#$%^&*] that are repeated identically, and on a sign-up form
    whose names and e-mail are in order [validateForm] gives the same
    verdict on the same two passwords. *)
Theorem reset_enforces_the_sign_up_policy (r : ResetPassword.State) :
  ((ResetPassword.validatePassword r).1 = true <->
   8 <= length (ResetPassword.newPassword (ResetPassword.formData r)) /\
   SignUp.has SignUp.lower (ResetPassword.newPassword (ResetPassword.formData r)) /\
   SignUp.has SignUp.upper (ResetPassword.newPassword (ResetPassword.formData r)) /\
   SignUp.has SignUp.digit (ResetPassword.newPassword (ResetPassword.formData r)) /\
   SignUp.has SignUp.special (ResetPassword.newPassword (ResetPassword.formData r)) /\
   ResetPassword.newPassword (ResetPassword.formData r)
   = ResetPassword.confirmPassword (ResetPassword.formData r)) /\
  (forall s : SignUp.State,
     SignUp.password (SignUp.formData s)
     = ResetPassword.newPassword (ResetPassword.formData r) ->
     SignUp.confirmPassword (SignUp.formData s)
     = ResetPassword.confirmPassword (ResetPassword.formData r) ->
     trim (SignUp.firstName (SignUp.formData s)) <> [] ->
     trim (SignUp.lastName (SignUp.formData s)) <> [] ->
     SignUp.email_shape (SignUp.email (SignUp.formData s)) ->
     (SignUp.validateForm s).1 = (ResetPassword.validatePassword r).1).
Proof.
  assert (Hv : (ResetPassword.validatePassword r).1
               = negb (length (ResetPassword.newPassword (ResetPassword.formData r)) <? 8)%nat
                 && test SignUp.lower_re (ResetPassword.newPassword (ResetPassword.formData r))
                 && test SignUp.upper_re (ResetPassword.newPassword (ResetPassword.formData r))
                 && test SignUp.digit_re (ResetPassword.newPassword (ResetPassword.formData r))
                 && test SignUp.special_re (ResetPassword.newPassword (ResetPassword.formData r))
                 && jseq (ResetPassword.newPassword (ResetPassword.formData r))
                      (ResetPassword.confirmPassword (ResetPassword.formData r))).
  { unfold ResetPassword.validatePassword.
    repeat match goal with
    | |- context [if negb ?c then _ else _] =>
        destruct c; cbn [negb fst andb]; try reflexivity
    | |- context [if ?c then _ else _] =>
        destruct c; cbn [negb fst andb]; try reflexivity
    end. }
  split.
  - rewrite Hv, !andb_true_iff, negb_true_iff, Nat.ltb_ge.
    unfold SignUp.lower_re, SignUp.upper_re, SignUp.digit_re,
      SignUp.special_re. rewrite !test_ahead.
    unfold jseq. rewrite bool_decide_eq_true. tauto.
  - intros s Hp Hc Hf Hl He.
    rewrite validateForm_checks, Hv. unfold SignUp.checks.
    rewrite Hp, Hc.
    apply truthy_spec in Hf, Hl. rewrite Hf, Hl.
    pose proof (email_shape_trim _ He) as Ht. apply truthy_spec in Ht.
    rewrite Ht. apply test_email_re in He. rewrite He. reflexivity.
Qed.

(** X15. The reset page calls [confirmResetPassword] exactly when the
    code is not blank, the password passes [validatePassword] and an
    e-mail came with the navigation; the code goes out as typed. At the
    end an error and a success message are never shown together, and a
    success message comes with the navigation to [/login], two seconds
    later. *)
Theorem reset_submits_complete_requests_only (location_state : option jsstring)
    (confirmResetPassword : jsstring -> jsstring -> jsstring -> Outcome unit)
    (st : ResetPassword.State) :
  let r := ResetPassword.handleSubmit location_state confirmResetPassword st in
  let f := ResetPassword.formData st in
  (existsb is_call r.2 = true <->
   trim (ResetPassword.code f) <> [] /\
   (ResetPassword.validatePassword st).1 = true /\
   state_email location_state <> []) /\
  (forall q, In (Call q) r.2 ->
     q = ConfirmResetPassword (state_email location_state)
           (ResetPassword.code f) (ResetPassword.newPassword f)) /\
  (ResetPassword.error r.1 = [] \/ ResetPassword.success r.1 = []) /\
  (ResetPassword.success r.1 <> [] ->
   In (NavigateLater 2000 (lit "/login") None) r.2).
Proof.
  cbv zeta. unfold ResetPassword.handleSubmit.
  set (st0 := ResetPassword.setSuccess [] (ResetPassword.setError [] st)).
  change (ResetPassword.formData st0) with (ResetPassword.formData st).
  pose proof (truthy_spec (trim (ResetPassword.code (ResetPassword.formData st)))) as Hcode.
  pose proof (truthy_spec (state_email location_state)) as Hmail.
  pose proof (validatePassword_formData st0 st eq_refl) as Hsame.
  pose proof (validatePassword_accepts_state st0) as Hacc.
  pose proof (validatePassword_refusal st0) as Href.
  destruct (truthy (trim (ResetPassword.code (ResetPassword.formData st))));
    cbn [negb].
  - destruct (ResetPassword.validatePassword st0) as [ok st1].
    cbn [fst snd] in *. rewrite <- Hsame. destruct ok; cbn [negb].
    + rewrite (Hacc eq_refl).
      destruct (truthy (state_email location_state)); cbn [negb].
      * destruct (confirmResetPassword _ _ _) as [u | err];
          cbn [fst snd existsb is_call orb].
        -- split; [tauto|]. split.
           { intros q [H | [H | [H | []]]]; try discriminate H.
             injection H as <-. reflexivity. }
           split; [left; reflexivity | intros _; cbn; tauto].
        -- split; [tauto|]. split.
           { intros q [H | [H | [H | []]]]; try discriminate H.
             injection H as <-. reflexivity. }
           split; [right; unfold ResetPassword.on_rejected;
                   repeat match goal with
                   | |- context [if jseq ?a ?b then _ else _] =>
                       destruct (jseq a b)
                   end; reflexivity
                  | ].
           unfold ResetPassword.on_rejected.
           repeat match goal with
           | |- context [if jseq ?a ?b then _ else _] => destruct (jseq a b)
           end; intros H; exfalso; apply H; reflexivity.
      * cbn [fst snd existsb is_call orb].
        split; [split; [discriminate | intros (_ & _ & H); apply Hmail in H; discriminate]|].
        split; [intros q [H | []]; discriminate H|].
        split; [right; reflexivity | intros H; exfalso; apply H; reflexivity].
    + cbn [fst snd existsb is_call orb].
      destruct (Href eq_refl) as [He Hs].
      split; [split; [discriminate | intros (_ & H & _); discriminate H]|].
      split; [intros q [H | []]; discriminate H|].
      split; [right; rewrite Hs; reflexivity|].
      rewrite Hs. intros H. exfalso. apply H. reflexivity.
  - cbn [fst snd existsb is_call orb].
    split; [split; [discriminate | intros (H & _); apply Hcode in H; discriminate]|].
    split; [intros q [H | []]; discriminate H|].
    split; [right; reflexivity | intros H; exfalso; apply H; reflexivity].
Qed.

End RecoveryFacts.

(** ** The login, verification and dashboard pages *)

Module SessionFacts.
Import Re Js Pages SignUpFacts RecoveryFacts.


(** X17. A login refused because the user is not confirmed shows a message
    and schedules, two seconds later, the navigation to [/verify-email]
    with the e-mail; no other refusal navigates anywhere. Every refusal
    leaves a message. *)
Theorem refused_login_shows_a_message
    (signIn : jsstring -> jsstring -> Outcome Login.SignInOutput)
    (st : Login.State) (err : SignUp.Err) :
  let r := Login.handleSubmit signIn st in
  let f := Login.formData st in
  trim (Login.email f) <> [] -> trim (Login.password f) <> [] ->
  signIn (Login.email f) (Login.password f) = Rejected err ->
  Login.error r.1 <> [] /\
  (forall e p, In e r.2 -> target e = Some p ->
     SignUp.name err = lit "UserNotConfirmedException" /\
     e = NavigateLater 2000 (lit "/verify-email") (Some (Login.email f))) /\
  (SignUp.name err = lit "UserNotConfirmedException" ->
   In (NavigateLater 2000 (lit "/verify-email") (Some (Login.email f))) r.2).
Proof.
  cbv zeta. intros He Hp Hrej. unfold Login.handleSubmit.
  change (Login.formData (Login.setError [] st)) with (Login.formData st).
  apply truthy_spec in He, Hp. rewrite He, Hp, Hrej. cbn [negb orb].
  unfold Login.on_rejected.
  change (Login.formData (Login.setLoading true (Login.setError [] st)))
    with (Login.formData st).
  destruct (jseq (SignUp.name err) (lit "UserNotConfirmedException")) eqn:E1;
    unfold jseq in E1.
  - apply bool_decide_eq_true in E1. cbn [fst snd].
    split; [apply lit_nonempty|]. split.
    + intros e p [<- | [<- | [<- | [<- | []]]]] H; try discriminate H.
      split; [exact E1 | reflexivity].
    + intros _. cbn. tauto.
  - apply bool_decide_eq_false in E1.
    repeat match goal with
    | |- context [if jseq ?a ?b then _ else _] => destruct (jseq a b)
    end; cbn [fst snd Login.error Login.setLoading Login.setError];
    (split; [first [apply lit_nonempty
                   | apply SignUpMore.or_else_nonempty, lit_nonempty]|]);
    (split; [intros e p [<- | [<- | [<- | []]]] H; discriminate H
            | intros H; contradiction]).
Qed.

(** X18. The verification page calls [confirmSignUp] exactly when the
    code is not blank and an e-mail came with the navigation, for that
    e-mail and the code as typed, and [resendSignUpCode] exactly when an
    e-mail came, for that e-mail; these are the only calls of the two
    handlers, and neither handler ever leaves an error and a success
    message together. *)
Theorem verification_needs_code_and_email (location_state : option jsstring)
    (confirmSignUp : jsstring -> jsstring -> Outcome unit)
    (resendSignUpCode : jsstring -> Outcome unit) (st : VerifyEmail.State) :
  let r := VerifyEmail.handleSubmit location_state confirmSignUp st in
  let r' := VerifyEmail.handleResendCode location_state resendSignUpCode st in
  (existsb is_call r.2 = true <->
   trim (VerifyEmail.code st) <> [] /\ state_email location_state <> []) /\
  (forall q, In (Call q) r.2 ->
     q = ConfirmSignUp (state_email location_state) (VerifyEmail.code st)) /\
  (existsb is_call r'.2 = true <-> state_email location_state <> []) /\
  (forall q, In (Call q) r'.2 ->
     q = ResendSignUpCode (state_email location_state)) /\
  (VerifyEmail.error r.1 = [] \/ VerifyEmail.success r.1 = []) /\
  (VerifyEmail.error r'.1 = [] \/ VerifyEmail.success r'.1 = []).
Proof.
  cbv zeta. unfold VerifyEmail.handleSubmit, VerifyEmail.handleResendCode.
  cbn [VerifyEmail.code VerifyEmail.setSuccess VerifyEmail.setError].
  pose proof (truthy_spec (trim (VerifyEmail.code st))) as Hc.
  pose proof (truthy_spec (state_email location_state)) as Hm.
  assert (Hrej : forall err s,
            VerifyEmail.success s = [] ->
            VerifyEmail.success (VerifyEmail.on_rejected err s).1 = []).
  { intros err s Hs. unfold VerifyEmail.on_rejected.
    repeat match goal with
    | |- context [if jseq ?a ?b then _ else _] => destruct (jseq a b)
    end; exact Hs. }
  assert (Hcalls : forall err s e,
            In e (VerifyEmail.on_rejected err s).2 -> is_call e = false).
  { intros err s e. unfold VerifyEmail.on_rejected.
    repeat match goal with
    | |- context [if jseq ?a ?b then _ else _] => destruct (jseq a b)
    end; cbn [snd]; intros H; try destruct H as [<- | []]; try reflexivity;
    destruct H. }
  destruct (truthy (state_email location_state)); cbn [negb].
  - destruct (truthy (trim (VerifyEmail.code st))); cbn [negb].
    + split; [|split; [|split; [|split; [|split]]]].
      * destruct (confirmSignUp _ _) as [u | err];
          [|destruct (VerifyEmail.on_rejected err _)];
          cbn [fst snd existsb is_call orb]; tauto.
      * destruct (confirmSignUp _ _) as [u | err].
        -- intros q [H | [H | [H | []]]]; try discriminate H.
           injection H as <-. reflexivity.
        -- pose proof (Hcalls err
             (VerifyEmail.setLoading true
                {| VerifyEmail.code := VerifyEmail.code st;
                   VerifyEmail.error := [];
                   VerifyEmail.success := [];
                   VerifyEmail.loading := VerifyEmail.loading st;
                   VerifyEmail.resending := VerifyEmail.resending st |})) as Hk.
           destruct (VerifyEmail.on_rejected err _) as [s2 later].
           cbn [fst snd] in *.
           intros q [H | [H | [H | H]]]; try discriminate H.
           ++ injection H as <-. reflexivity.
           ++ apply Hk in H. discriminate H.
      * destruct (resendSignUpCode _); cbn [fst snd existsb is_call orb]; tauto.
      * destruct (resendSignUpCode _); cbn [fst snd]; intros q Hq;
          repeat (destruct Hq as [Hq | Hq]);
          first [ injection Hq as <-; reflexivity | discriminate Hq
                | destruct Hq ].
      * destruct (confirmSignUp _ _) as [u | err].
        -- left. reflexivity.
        -- pose proof (Hrej err
             (VerifyEmail.setLoading true
                {| VerifyEmail.code := VerifyEmail.code st;
                   VerifyEmail.error := [];
                   VerifyEmail.success := [];
                   VerifyEmail.loading := VerifyEmail.loading st;
                   VerifyEmail.resending := VerifyEmail.resending st |})
             eq_refl) as Hk.
           destruct (VerifyEmail.on_rejected err _) as [s2 later].
           right. exact Hk.
      * destruct (resendSignUpCode _); [left | right]; reflexivity.
    + cbn [fst snd existsb is_call orb].
      split; [split; [discriminate | intros [H _]; apply Hc in H; discriminate]|].
      split; [intros q [H | []]; discriminate H|].
      split; [destruct (resendSignUpCode _);
              cbn [fst snd existsb is_call orb]; tauto|].
      split; [destruct (resendSignUpCode _); cbn [fst snd]; intros q Hq;
              repeat (destruct Hq as [Hq | Hq]);
              first [ injection Hq as <-; reflexivity | discriminate Hq
                    | destruct Hq ]|].
      split; [right; reflexivity|].
      destruct (resendSignUpCode _); [left | right]; reflexivity.
  - assert (Hno : state_email location_state <> [] -> False).
    { intros H. apply Hm in H. discriminate. }
    destruct (truthy (trim (VerifyEmail.code st)));
      cbn [negb fst snd existsb is_call orb];
      (split; [split; [discriminate | tauto]|]);
      (split; [intros q [H | []]; discriminate H|]);
      (split; [split; [discriminate | tauto]|]);
      (split; [intros q []|]);
      split; right; reflexivity.
Qed.

(** X19. The dashboard shows the profile exactly when the current user and
    then the attributes were both obtained. If the user cannot be obtained
    the attributes are not asked for; either failure sends the browser to
    [/login]; the loading flag is off afterwards in every case. A failed
    sign-out navigates nowhere. *)
Theorem dashboard_shows_profile_when_authenticated
    (getCurrentUser : Outcome Dashboard.User)
    (fetchUserAttributes : Outcome Dashboard.UserAttributes)
    (signOut : Outcome unit) :
  let r := Dashboard.checkUser getCurrentUser fetchUserAttributes
             Dashboard.initial in
  (Dashboard.shows_profile r.1 = true <->
   exists u a, getCurrentUser = Fulfilled u /\
               fetchUserAttributes = Fulfilled a) /\
  (Dashboard.shows_profile r.1 = false ->
   In (Navigate (lit "/login") None) r.2) /\
  ((exists err, getCurrentUser = Rejected err) ->
   ~ In (Call FetchUserAttributes) r.2) /\
  Dashboard.loading r.1 = false /\
  ((exists err, signOut = Rejected err) ->
   forall e, In e (Dashboard.handleSignOut signOut) -> target e = None).
Proof.
  cbv zeta. unfold Dashboard.checkUser, Dashboard.handleSignOut.
  destruct getCurrentUser as [u | e1]; [destruct fetchUserAttributes as [a | e2]|];
    cbn [fst snd Dashboard.shows_profile Dashboard.loading Dashboard.user
         Dashboard.setLoading Dashboard.initial negb andb].
  - split; [split; [intros _; exists u, a; tauto | reflexivity]|].
    split; [discriminate|]. split; [intros (err & H); discriminate H|].
    split; [reflexivity|].
    intros (err & ->) e [<- | [<- | []]]; reflexivity.
  - split; [split; [discriminate | intros (? & ? & _ & H); discriminate H]|].
    split; [intros _; cbn; tauto|].
    split; [intros (err & H); discriminate H|].
    split; [reflexivity|].
    intros (err & ->) e [<- | [<- | []]]; reflexivity.
  - split; [split; [discriminate | intros (? & ? & H & _); discriminate H]|].
    split; [intros _; cbn; tauto|].
    split; [intros _ [H | [H | [H | []]]]; discriminate H|].
    split; [reflexivity|].
    intros (err & ->) e [<- | [<- | []]]; reflexivity.
Qed.

Lemma refused_login_shows_a_message_witness :
  Login.error (Login.handleSubmit (fun _ _ => Rejected Login.unconfirmed)
                 Login.filled).1 <> [] /\
  In (NavigateLater 2000 (lit "/verify-email")
        (Some (lit "john.doe@example.com")))
     (Login.handleSubmit (fun _ _ => Rejected Login.unconfirmed)
        Login.filled).2.
Proof.
  destruct (refused_login_shows_a_message
              (fun _ _ => Rejected Login.unconfirmed) Login.filled
              Login.unconfirmed) as [Hmsg [_ Hnav]].
  - vm_compute. discriminate.
  - vm_compute. discriminate.
  - reflexivity.
  - split; [exact Hmsg | apply Hnav; reflexivity].
Defined.

End SessionFacts.

(** ** The pages together *)

Module FlowFacts.
Import Re Js Pages App SignUpFacts RecoveryFacts.

(** Goes through the effects of a handler and checks the path of each
    navigation against the route table. *)
Ltac routed :=
  let e := fresh "e" in
  let p := fresh "p" in
  let Hin := fresh "Hin" in
  let Ht := fresh "Ht" in
  intros e p Hin Ht; cbn [In fst snd] in Hin;
  repeat (destruct Hin as [Hin | Hin]);
  first [ contradiction
        | subst e; cbn [target signup_target] in Ht;
          first [ discriminate Ht
                | injection Ht as <-; vm_compute; tauto ] ].

Ltac cases :=
  repeat match goal with
  | |- context [if negb ?c then _ else _] => destruct c; cbn [negb orb]
  | |- context [if jseq ?a ?b then _ else _] => destruct (jseq a b)
  | |- context [if ?c then _ else _] => destruct c; cbn [negb orb]
  | |- context [match ?x with Fulfilled _ => _ | Rejected _ => _ end] =>
      destruct x
  | |- context [match ?x with SignUp.Resolved => _ | SignUp.Rejected _ => _ end] =>
      destruct x
  | |- context [let '(_, _) := ?x in _] => destruct x
  end.

(** X20. Every navigation of every page, immediate or scheduled, goes to
    a path that the route table declares, and so does the redirect of the
    root path. *)
Theorem every_navigation_has_a_route
    (signUp : SignUp.SignUpInput -> SignUp.Settled) (s1 : SignUp.State)
    (signIn : jsstring -> jsstring -> Outcome Login.SignInOutput)
    (s2 : Login.State)
    (resetPassword : jsstring -> Outcome unit) (s3 : ForgotPassword.State)
    (location_state : option jsstring)
    (confirmResetPassword : jsstring -> jsstring -> jsstring -> Outcome unit)
    (s4 : ResetPassword.State)
    (confirmSignUp : jsstring -> jsstring -> Outcome unit)
    (resendSignUpCode : jsstring -> Outcome unit) (s5 : VerifyEmail.State)
    (getCurrentUser : Outcome Dashboard.User)
    (fetchUserAttributes : Outcome Dashboard.UserAttributes)
    (s6 : Dashboard.State) (signOut : Outcome unit) :
  (forall e p, In e (SignUp.handleSubmit signUp s1).2 ->
     signup_target e = Some p -> declared p) /\
  (forall e p, In e (Login.handleSubmit signIn s2).2 ->
     target e = Some p -> declared p) /\
  (forall e p, In e (ForgotPassword.handleSubmit resetPassword s3).2 ->
     target e = Some p -> declared p) /\
  (forall e p,
     In e (ResetPassword.handleSubmit location_state confirmResetPassword s4).2 ->
     target e = Some p -> declared p) /\
  (forall e p,
     In e (VerifyEmail.handleSubmit location_state confirmSignUp s5).2 ->
     target e = Some p -> declared p) /\
  (forall e p,
     In e (VerifyEmail.handleResendCode location_state resendSignUpCode s5).2 ->
     target e = Some p -> declared p) /\
  (forall e p,
     In e (Dashboard.checkUser getCurrentUser fetchUserAttributes s6).2 ->
     target e = Some p -> declared p) /\
  (forall e p, In e (Dashboard.handleSignOut signOut) ->
     target e = Some p -> declared p) /\
  (forall p to, In (p, Redirect to) routes -> declared to).
Proof.
  repeat apply conj.
  - unfold SignUp.handleSubmit. cases; routed.
  - unfold Login.handleSubmit, Login.on_rejected. cases; routed.
  - unfold ForgotPassword.handleSubmit. cases; routed.
  - unfold ResetPassword.handleSubmit. cases; routed.
  - unfold VerifyEmail.handleSubmit, VerifyEmail.on_rejected. cases; routed.
  - unfold VerifyEmail.handleResendCode. cases; routed.
  - unfold Dashboard.checkUser. cases; routed.
  - unfold Dashboard.handleSignOut. cases; routed.
  - intros p to Hin. unfold routes in Hin. cbn [In] in Hin.
    repeat (destruct Hin as [Hin | Hin]);
      first [ contradiction | discriminate Hin
            | injection Hin as _ <-; vm_compute; tauto ].
Qed.

(** X21. From sign-up to verification: when an acceptable form has been
    signed up, the navigation to [/verify-email] hands over the e-mail of
    the form, and the verification page, given any code that is not
    blank, confirms the sign-up of that very e-mail. *)
Theorem sign_up_hands_the_email_to_verification
    (signUp : SignUp.SignUpInput -> SignUp.Settled) (st : SignUp.State)
    (confirmSignUp : jsstring -> jsstring -> Outcome unit)
    (vst : VerifyEmail.State) :
  SignUp.acceptable (SignUp.formData st) ->
  signUp (request (SignUp.formData st)) = SignUp.Resolved ->
  trim (VerifyEmail.code vst) <> [] ->
  In (SignUp.Navigate (lit "/verify-email") (SignUp.email (SignUp.formData st)))
     (SignUp.handleSubmit signUp st).2 /\
  In (Call (ConfirmSignUp (SignUp.email (SignUp.formData st))
              (VerifyEmail.code vst)))
     (VerifyEmail.handleSubmit (Some (SignUp.email (SignUp.formData st)))
        confirmSignUp vst).2.
Proof.
  intros Hacc Hres Hcode.
  assert (Hne : SignUp.email (SignUp.formData st) <> [])
    by (destruct Hacc; apply email_shape_nonempty; assumption).
  split.
  - rewrite (SignUpMore.handleSubmit_accepted signUp st Hacc), Hres.
    cbn. tauto.
  - unfold VerifyEmail.handleSubmit. rewrite state_email_some.
    cbn [VerifyEmail.code VerifyEmail.setSuccess VerifyEmail.setError].
    apply truthy_spec in Hcode, Hne. rewrite Hcode, Hne. cbn [negb].
    destruct (confirmSignUp _ _) as [u | err];
      [|destruct (VerifyEmail.on_rejected err _)]; cbn; tauto.
Qed.

(** X22. From the forgotten password to its reset: when the reset has
    been requested for a well-formed address, the navigation to
    [/reset-password] hands over that address, and the reset page, given
    a code that is not blank and a password that passes its check,
    confirms the reset for that very address. *)
Theorem forgot_hands_the_email_to_reset
    (resetPassword : jsstring -> Outcome unit) (st : ForgotPassword.State)
    (confirmResetPassword : jsstring -> jsstring -> jsstring -> Outcome unit)
    (rst : ResetPassword.State) (u : unit) :
  SignUp.email_shape (ForgotPassword.email st) ->
  resetPassword (ForgotPassword.email st) = Fulfilled u ->
  trim (ResetPassword.code (ResetPassword.formData rst)) <> [] ->
  (ResetPassword.validatePassword rst).1 = true ->
  In (Navigate (lit "/reset-password") (Some (ForgotPassword.email st)))
     (ForgotPassword.handleSubmit resetPassword st).2 /\
  In (Call (ConfirmResetPassword (ForgotPassword.email st)
              (ResetPassword.code (ResetPassword.formData rst))
              (ResetPassword.newPassword (ResetPassword.formData rst))))
     (ResetPassword.handleSubmit (Some (ForgotPassword.email st))
        confirmResetPassword rst).2.
Proof.
  intros Hshape Hres Hcode Hpw.
  pose proof (email_shape_nonempty _ Hshape) as Hne.
  pose proof (email_shape_trim _ Hshape) as Htrim.
  apply truthy_spec in Hcode, Hne, Htrim. split.
  - unfold ForgotPassword.handleSubmit, ForgotPassword.email_re.
    cbn [ForgotPassword.email ForgotPassword.setError].
    apply test_email_re in Hshape. rewrite Htrim, Hshape, Hres.
    cbn. tauto.
  - unfold ResetPassword.handleSubmit. rewrite state_email_some.
    set (st0 := ResetPassword.setSuccess [] (ResetPassword.setError [] rst)).
    change (ResetPassword.formData st0) with (ResetPassword.formData rst).
    pose proof (validatePassword_formData st0 rst eq_refl) as Hsame.
    destruct (ResetPassword.validatePassword st0) as [ok st1].
    cbn [fst] in Hsame. rewrite Hsame, Hpw, Hcode, Hne. cbn [negb].
    destruct (confirmResetPassword _ _ _); cbn; tauto.
Qed.

Lemma sign_up_hands_the_email_to_verification_witness :
  In (SignUp.Navigate (lit "/verify-email") (lit "john.doe@example.com"))
     (SignUp.handleSubmit (fun _ => SignUp.Resolved) SignUp.good_form).2 /\
  In (Call (ConfirmSignUp (lit "john.doe@example.com") (lit "123456")))
     (VerifyEmail.handleSubmit (Some (lit "john.doe@example.com"))
        (fun _ _ => Fulfilled tt) VerifyEmail.filled).2.
Proof.
  apply (sign_up_hands_the_email_to_verification
           (fun _ => SignUp.Resolved) SignUp.good_form
           (fun _ _ => Fulfilled tt) VerifyEmail.filled).
  - apply checks_acceptable. reflexivity.
  - reflexivity.
  - vm_compute. discriminate.
Defined.

Lemma forgot_hands_the_email_to_reset_witness :
  In (Navigate (lit "/reset-password") (Some (lit "john.doe@example.com")))
     (ForgotPassword.handleSubmit (fun _ => Fulfilled tt)
        ForgotPassword.filled).2 /\
  In (Call (ConfirmResetPassword (lit "john.doe@example.com")
              (lit "123456") (lit "Secret1!x")))
     (ResetPassword.handleSubmit (Some (lit "john.doe@example.com"))
        (fun _ _ _ => Fulfilled tt) ResetPassword.filled).2.
Proof.
  apply (forgot_hands_the_email_to_reset (fun _ => Fulfilled tt)
           ForgotPassword.filled (fun _ _ _ => Fulfilled tt)
           ResetPassword.filled tt).
  - apply test_email_re. reflexivity.
  - reflexivity.
  - vm_compute. discriminate.
  - reflexivity.
Defined.

End FlowFacts.

(** ** Reading the outputs file in the CDK deployment script *)

Module CdkFacts.
Import Cdk.

Lemma starts_with_app (p l : text) : starts_with p (p ++ l) = true.
Proof.
  induction p as [|a p IH]; [reflexivity|].
  cbn. rewrite Ascii.eqb_refl. exact IH.
Qed.

Lemma key_pattern_length (key : string) :
  length (key_pattern key) = S (length (list_ascii_of_string key ++ [dquote])).
Proof. reflexivity. Qed.

Lemma until_comma_app (l tail : text) :
  ~ In ","%char l -> (tail = [] \/ exists t, tail = ","%char :: t) ->
  until_comma (l ++ tail) = l.
Proof.
  intros Hl Ht. induction l as [|c l IH]; cbn.
  - destruct Ht as [-> | [t ->]]; reflexivity.
  - destruct (Ascii.eqb c ",") eqn:E.
    + apply Ascii.eqb_eq in E. exfalso. apply Hl. left. exact E.
    + f_equal. apply IH. intros H. apply Hl. right. exact H.
Qed.

Lemma matches_from_skip (pat l tail : text) :
  matches_from pat (length l) (l ++ tail) = matches_from pat 0 tail.
Proof.
  induction l as [|c l IH]; cbn.
  - destruct tail; reflexivity.
  - exact IH.
Qed.

Lemma matches_from_indent (pat : text) (n : nat) (l : text) :
  hd " "%char pat <> " "%char ->
  matches_from pat 0 (repeat " "%char n ++ l) = matches_from pat 0 l.
Proof.
  intros Hhd. induction n as [|n IH]; [reflexivity|].
  cbn [repeat app matches_from].
  destruct pat as [|a pat]; [contradiction Hhd; reflexivity|].
  cbn [starts_with hd] in *.
  destruct (Ascii.eqb a " ") eqn:E.
  - apply Ascii.eqb_eq in E. contradiction.
  - cbn. exact IH.
Qed.

Lemma from_colon_app (l rest : text) :
  ~ In ":"%char l -> from_colon (l ++ ":"%char :: rest) = ":"%char :: rest.
Proof.
  intros Hl. induction l as [|c l IH]; [reflexivity|].
  cbn. destruct (Ascii.eqb c ":") eqn:E.
  - apply Ascii.eqb_eq in E. exfalso. apply Hl. left. exact E.
  - apply IH. intros H. apply Hl. right. exact H.
Qed.

Lemma tr_d_app (a b : text) : tr_d (a ++ b) = tr_d a ++ tr_d b.
Proof. apply List.filter_app. Qed.

Lemma tr_d_clean (v : text) :
  (forall c, In c v -> ~ In c DELETED) -> tr_d v = v.
Proof.
  intros H. induction v as [|c v IH]; [reflexivity|].
  unfold tr_d in *. cbn [List.filter].
  destruct (existsb (Ascii.eqb c) DELETED) eqn:E.
  - apply existsb_exists in E. destruct E as [d [Hd E]].
    apply Ascii.eqb_eq in E. subst d.
    exfalso. apply (H c); [left; reflexivity | exact Hd].
  - cbn. f_equal. apply IH. intros d Hd. apply H. right. exact Hd.
Qed.

Lemma tr_d_none (v : text) (c : ascii) : In c (tr_d v) -> ~ In c DELETED.
Proof.
  unfold tr_d. intros H. apply List.filter_In in H. destruct H as [_ H].
  intros Hd. apply negb_true_iff in H.
  assert (existsb (Ascii.eqb c) DELETED = true) as E.
  { apply existsb_exists. exists c. split; [exact Hd | apply Ascii.eqb_refl]. }
  congruence.
Qed.

Lemma join_strip_one (l : text) : join (strip_end [l]) = l.
Proof. destruct l; reflexivity. Qed.

(** The matches of the first filter on an entry line: the entry without
    its indentation and its comma. *)
Lemma grep_o_key_entry (indent : nat) (key : string) (value : text)
    (last : bool) :
  ~ In ","%char value ->
  grep_o_key key (entry indent key value last)
  = [key_pattern key ++ ":"%char :: " "%char :: dquote :: value ++ [dquote]].
Proof.
  intros Hv. unfold grep_o_key, entry.
  rewrite matches_from_indent;
    [| unfold key_pattern; cbn; discriminate].
  set (pat := key_pattern key).
  set (body := ":"%char :: " "%char :: dquote :: value ++ [dquote]).
  set (tail := if last then [] else [","%char]).
  assert (":"%char :: " "%char :: dquote :: value ++ dquote :: tail
          = body ++ tail) as ->.
  { unfold body. cbn. rewrite <- app_assoc. reflexivity. }
  assert (until_comma (body ++ tail) = body) as Hrun.
  { apply until_comma_app.
    - unfold body. intros [H | [H | [H | H]]]; try discriminate.
      apply in_app_or in H. destruct H as [H | [H | []]];
        [exact (Hv H) | discriminate].
    - unfold tail. destruct last; [left; reflexivity | right; eexists; reflexivity]. }
  assert (exists a p, pat = a :: p) as [a [p Hp]].
  { unfold pat, key_pattern. eexists. eexists. reflexivity. }
  assert (matches_from pat 0 (pat ++ body ++ tail)
          = (pat ++ body) :: matches_from pat (length (pat ++ body) - 1)
                               (p ++ body ++ tail)) as ->.
  { pose proof (starts_with_app pat (body ++ tail)) as Hs.
    rewrite Hp at 2. rewrite Hp in Hs at 2.
    cbn [app matches_from]. cbn [app] in Hs. rewrite Hs.
    assert (drop (length pat) (a :: p ++ body ++ tail) = body ++ tail) as ->.
    { change (a :: p ++ body ++ tail) with ((a :: p) ++ body ++ tail).
      rewrite <- Hp. apply drop_app_length. }
    rewrite Hrun. reflexivity. }
  f_equal.
  assert (length (pat ++ body) - 1 = length (p ++ body)) as ->.
  { rewrite Hp. cbn. lia. }
  rewrite (app_assoc p body tail). rewrite matches_from_skip.
  unfold tail, pat, key_pattern. destruct last; reflexivity.
Qed.

(** What the three filters print for an entry line. *)
Lemma pipeline_entry (indent : nat) (key : string) (value : text)
    (last : bool) :
  ~ In ":"%char (list_ascii_of_string key) -> ~ In ","%char value ->
  flat_map grep_o_colon (grep_o_key key (entry indent key value last))
  = [":"%char :: " "%char :: dquote :: value ++ [dquote]].
Proof.
  intros Hc Hv. rewrite grep_o_key_entry by assumption.
  cbn [flat_map]. rewrite app_nil_r. unfold grep_o_colon.
  rewrite from_colon_app; [reflexivity|].
  unfold key_pattern. intros [H | H]; [discriminate|].
  apply in_app_or in H. destruct H as [H | [H | []]];
    [exact (Hc H) | discriminate].
Qed.

Lemma tr_d_quoted (value : text) :
  tr_d (":"%char :: " "%char :: dquote :: value ++ [dquote]) = tr_d value.
Proof.
  change (":"%char :: " "%char :: dquote :: value ++ [dquote])
    with ([":"%char; " "%char; dquote] ++ value ++ [dquote]).
  rewrite !tr_d_app. cbn. apply app_nil_r.
Qed.

Lemma extract_entry (key : string) (before after : list text)
    (indent : nat) (value : text) (last : bool) :
  ~ In ":"%char (list_ascii_of_string key) -> ~ In ","%char value ->
  flat_map (grep_o_key key) (before ++ after) = [] ->
  extract key (before ++ entry indent key value last :: after) = tr_d value.
Proof.
  intros Hc Hv Hnone. rewrite flat_map_app in Hnone.
  apply app_eq_nil in Hnone. destruct Hnone as [Hb Ha].
  unfold extract, pipeline. rewrite flat_map_app. cbn [flat_map].
  rewrite Hb, Ha, app_nil_r. cbn [app].
  rewrite pipeline_entry by assumption.
  cbn [map]. rewrite tr_d_quoted. apply join_strip_one.
Qed.

Lemma starts_with_occurs (pat line : text) :
  starts_with pat line = true -> exists after, line = pat ++ after.
Proof.
  revert line. induction pat as [|a pat IH]; intros line H.
  - exists line. reflexivity.
  - destruct line as [|b line]; [discriminate|].
    cbn in H. apply andb_true_iff in H. destruct H as [E H].
    apply Ascii.eqb_eq in E. subst b.
    destruct (IH line H) as [after ->]. exists after. reflexivity.
Qed.

Lemma matches_from_absent (pat line : text) :
  ~ occurs pat line -> matches_from pat 0 line = [].
Proof.
  induction line as [|c line IH]; intros Hno; [reflexivity|].
  cbn [matches_from].
  destruct (starts_with pat (c :: line)) eqn:E.
  - exfalso. apply Hno. destruct (starts_with_occurs _ _ E) as [after H].
    exists [], after. exact H.
  - apply IH. intros [b [a H]]. apply Hno.
    exists (c :: b), a. rewrite H. reflexivity.
Qed.

(** X23 (src/unnamed/part_004, Step 7): when the outputs file holds one
    entry for a key, and the quoted key matches on no other line, the
    command substitution yields the entry's value with every colon, space
    and double quote taken out; a value without these characters is read
    as it stands. *)
Theorem extraction_reads_the_entry (key : string) (before after : list text)
    (indent : nat) (value : text) (last : bool) :
  ~ In ":"%char (list_ascii_of_string key) -> ~ In ","%char value ->
  flat_map (grep_o_key key) (before ++ after) = [] ->
  let read := extract key (before ++ entry indent key value last :: after) in
  read = tr_d value /\
  (forall c, In c read -> c <> ":"%char /\ c <> " "%char /\ c <> dquote) /\
  ((forall c, In c value -> ~ In c DELETED) -> read = value).
Proof.
  intros Hc Hv Hnone read.
  assert (read = tr_d value) as E by (apply extract_entry; assumption).
  split; [exact E|]. split.
  - intros c Hin. rewrite E in Hin. apply tr_d_none in Hin.
    repeat split; intros ->; apply Hin; cbn; tauto.
  - intros Hclean. rewrite E. apply tr_d_clean. exact Hclean.
Qed.

Lemma extraction_reads_the_entry_witness :
  extract "Region" sample_outputs = of_string "us-east-1".
Proof.
  refine (proj2 (proj2 (extraction_reads_the_entry "Region"
            (firstn 4 sample_outputs) (skipn 5 sample_outputs)
            4 (of_string "us-east-1") false _ _ _)) _).
  - cbn. intros H. repeat (destruct H as [H | H]; [discriminate|]). exact H.
  - cbn. intros H. repeat (destruct H as [H | H]; [discriminate|]). exact H.
  - reflexivity.
  - cbn. intros c H Hd.
    repeat (destruct H as [<- | H];
            [repeat (destruct Hd as [Hd | Hd]; [discriminate|]); exact Hd|]).
    exact H.
Defined.

(** X24 (src/unnamed/part_004, Step 7): a value that holds a colon, such
    as the [https] address of the web site, is never read back as it is in
    the outputs file. *)
Theorem value_with_a_colon_is_not_read_back (key : string)
    (before after : list text) (indent : nat) (value : text) (last : bool) :
  ~ In ":"%char (list_ascii_of_string key) -> ~ In ","%char value ->
  flat_map (grep_o_key key) (before ++ after) = [] ->
  In ":"%char value ->
  extract key (before ++ entry indent key value last :: after) <> value.
Proof.
  intros Hc Hv Hnone Hcolon E.
  rewrite extract_entry in E by assumption.
  rewrite <- E in Hcolon. apply tr_d_none in Hcolon.
  apply Hcolon. left. reflexivity.
Qed.

Lemma value_with_a_colon_is_not_read_back_witness :
  extract "WebsiteURL" sample_outputs <> sample_url.
Proof.
  refine (value_with_a_colon_is_not_read_back "WebsiteURL"
            (firstn 5 sample_outputs) (skipn 6 sample_outputs)
            4 sample_url true _ _ _ _).
  - cbn. intros H. repeat (destruct H as [H | H]; [discriminate|]). exact H.
  - cbn. intros H. repeat (destruct H as [H | H]; [discriminate|]). exact H.
  - reflexivity.
  - cbn. tauto.
Defined.

(** X25 (src/unnamed/part_004, Step 7): when the quoted key occurs on no
    line of the outputs file, the command substitution yields the empty
    text. *)
Theorem absent_key_reads_as_empty (key : string) (file : list text) :
  (forall line, In line file -> ~ occurs (key_pattern key) line) ->
  extract key file = [].
Proof.
  intros Hno.
  assert (flat_map (grep_o_key key) file = []) as E.
  { induction file as [|l file IH]; [reflexivity|].
    cbn [flat_map]. unfold grep_o_key at 1.
    rewrite matches_from_absent by (apply Hno; left; reflexivity).
    apply IH. intros line Hin. apply Hno. right. exact Hin. }
  unfold extract, pipeline. rewrite E. reflexivity.
Qed.

Lemma absent_key_reads_as_empty_witness :
  extract "UserPoolId" [of_string "{"; of_string "}"] = [].
Proof.
  apply absent_key_reads_as_empty.
  intros line [<- | [<- | []]] [b [a H]];
    apply (f_equal (@length ascii)) in H;
    rewrite !length_app in H; cbn in H; lia.
Defined.

End CdkFacts.
